(** * richmenu: the selection menu and its fuzzy matcher

    A shallow embedding of [richmenu/menu.py] and [richmenu/keys.py]:
    the key predicates and [getchar] of [keys.py], the scorer
    [fuzz_scorer], the search [search_for_matches] and the [Menu] class
    ([search], [check_key], [run]).

    Python values are modelled as follows.
    - [str] is [string] (8-bit characters); [len], [startswith], [find],
      [lower], [partition] and the slice [s[:-1]] are written out below.
    - [int] is [Z].
    - A [dict] with string keys is an association list in insertion order
      ([dict_get] raises [KeyError], [dict_set] overwrites in place or
      appends), because the display order of the menu is the insertion
      order.
    - A raised exception is the [Raise] alternative of [result].
    - The terminal mode that [raw_terminal] changes and restores is passed
      explicitly.

    The package [thefuzz] is not part of the repository. Its similarity
    function [fuzz.WRatio] and its default string processor are variables
    of the section [Model], so every theorem of the section holds for any
    choice of the two; [process.extract] is written out after the
    library's definition. *)

From Stdlib Require Import ZArith List String Ascii Bool Lia Sorted.
Import ListNotations.

Local Open Scope string_scope.
Local Open Scope Z_scope.

(** ** Python strings *)

Definition len (s : string) : Z := Z.of_nat (String.length s).

(** [s.startswith(p)] *)
Fixpoint startswith (s p : string) {struct p} : bool :=
  match p with
  | EmptyString => true
  | String c p' =>
      match s with
      | EmptyString => false
      | String d s' => Ascii.eqb d c && startswith s' p'
      end
  end.

(** [s.find(sub)], searching from offset [i]: the lowest index at which
    [sub] occurs, [-1] when it does not occur. *)
Fixpoint find_from (s sub : string) (i : Z) : Z :=
  if startswith s sub then i
  else match s with
       | EmptyString => -1
       | String _ s' => find_from s' sub (i + 1)
       end.

Definition find (s sub : string) : Z := find_from s sub 0.

Definition is_upper (c : ascii) : bool :=
  let n := nat_of_ascii c in (65 <=? n)%nat && (n <=? 90)%nat.

Definition lower_char (c : ascii) : ascii :=
  if is_upper c then ascii_of_nat (nat_of_ascii c + 32) else c.

(** [s.lower()], on the ASCII letters. *)
Fixpoint lower (s : string) : string :=
  match s with
  | EmptyString => EmptyString
  | String c s' => String (lower_char c) (lower s')
  end.

(** [s.partition(sep)] for a one-character separator: the text before the
    first [sep], the separator (empty when absent), the text after it. *)
Fixpoint partition (s : string) (sep : ascii) : string * string * string :=
  match s with
  | EmptyString => (EmptyString, EmptyString, EmptyString)
  | String c s' =>
      if Ascii.eqb c sep then (EmptyString, String sep EmptyString, s')
      else let '(before, found, after) := partition s' sep in
           (String c before, found, after)
  end.

(** The slice [s[:-1]]. *)
Fixpoint drop_last (s : string) : string :=
  match s with
  | EmptyString => EmptyString
  | String c EmptyString => EmptyString
  | String c s' => String c (drop_last s')
  end.

(** Truth value of a string: non-empty. *)
Definition truthy (s : string) : bool :=
  match s with EmptyString => false | _ => true end.

Definition contains_char (c : ascii) (s : string) : bool :=
  negb (String.eqb (snd (fst (partition s c))) EmptyString).

(** ** Exceptions and results *)

Inductive exn : Type :=
| KeyboardInterrupt
| EOFError
| QuitException
| KeyError (key : string)
| IndexError
| OSError
| RuntimeError.

Inductive result (A : Type) : Type :=
| Ok (a : A)
| Raise (e : exn).

Arguments Ok {A} a.
Arguments Raise {A} e.

Definition bind {A B : Type} (r : result A) (k : A -> result B) : result B :=
  match r with
  | Ok a => k a
  | Raise e => Raise e
  end.

Notation "x <- r ;; k" := (bind r (fun x => k))
  (at level 61, r at next level, right associativity).

(** ** Python containers *)

Definition dict := list (string * string).

Definition keys (d : dict) : list string := map fst d.

(** [d[key]] *)
Fixpoint dict_get (d : dict) (key : string) : result string :=
  match d with
  | [] => Raise (KeyError key)
  | (k, v) :: d' => if String.eqb k key then Ok v else dict_get d' key
  end.

(** [d[key] = v] *)
Fixpoint dict_set (d : dict) (key v : string) : dict :=
  match d with
  | [] => [(key, v)]
  | (k, w) :: d' =>
      if String.eqb k key then (k, v) :: d' else (k, w) :: dict_set d' key v
  end.

(** [t[i]] on a tuple: a negative index counts from the end. *)
Definition tuple_get (t : list string) (i : Z) : result string :=
  let n := Z.of_nat (List.length t) in
  let j := if i <? 0 then i + n else i in
  if (0 <=? j) && (j <? n)
  then match nth_error t (Z.to_nat j) with
       | Some x => Ok x
       | None => Raise IndexError
       end
  else Raise IndexError.

(** ** keys.py *)

Definition ESC : ascii := "027"%char.
Definition CR : ascii := "013"%char.
Definition LF : ascii := "010"%char.

Definition UP_ARROW : list string := [String ESC "[A"].
Definition DOWN_ARROW : list string := [String ESC "[B"].
Definition OK_BUTTON : list string :=
  [String CR ""; String LF (String CR ""); String CR (String LF "")].
Definition ESC_BUTTON : list string := [String ESC ""].
Definition BACKSPACE : list string := [String "127" ""].

Definition member (code : string) (codes : list string) : bool :=
  existsb (String.eqb code) codes.

Definition is_up (code : string) : bool := member code UP_ARROW.
Definition is_down (code : string) : bool := member code DOWN_ARROW.
Definition is_ok (code : string) : bool := member code OK_BUTTON.
Definition is_esc (code : string) : bool := member code ESC_BUTTON.
Definition is_backspace (code : string) : bool := member code BACKSPACE.

(** The terminal driver's mode. *)
Inductive tmode : Type := Cooked | Raw.

(** What the operating system answers during one call of [getchar]: whether
    standard input is a terminal, whether [/dev/tty] can be opened, whether
    [termios.tcgetattr] and [tty.setraw] succeed, and the decoded text of
    the read ([first]; on Windows [getwch] is called a second time after a
    special-key lead and answers [second]). *)
Record tty : Type := {
  stdin_isatty : bool;
  dev_tty_opens : bool;
  tcgetattr_ok : bool;
  setraw_ok : bool;
  first : string;
  second : string
}.

(** A read on a working terminal that delivers [ch]. *)
Definition typed (ch : string) : tty :=
  {| stdin_isatty := true; dev_tty_opens := true; tcgetattr_ok := true;
     setraw_ok := true; first := ch; second := "" |}.

(** [_translate_ch_to_exc] *)
Definition _translate_ch_to_exc (WIN : bool) (ch : string) : result unit :=
  if String.eqb ch (String "003" "") then Raise KeyboardInterrupt
  else if String.eqb ch (String "004" "") && negb WIN then Raise EOFError
  else if String.eqb ch (String "026" "") && WIN then Raise EOFError
  else Ok tt.

(** [raw_terminal] (the Unix definition) around a body: [open("/dev/tty")]
    stands outside the [try], so its failure is raised as it is; a
    [termios.error] of [tcgetattr] or [setraw] is swallowed by the
    [except] clause before the generator has yielded, which [contextlib]
    reports as a [RuntimeError]; after the body the [finally] clause puts
    the saved settings back. *)
Definition raw_terminal {A : Type} (t : tty) (mode : tmode)
    (body : tmode -> result A * tmode) : result A * tmode :=
  if negb (stdin_isatty t) && negb (dev_tty_opens t) then (Raise OSError, mode)
  else if negb (tcgetattr_ok t) then (Raise RuntimeError, mode)
  else
    let old_settings := mode in
    if negb (setraw_ok t) then (Raise RuntimeError, old_settings)
    else
      let '(r, _) := body Raw in
      (r, old_settings).

(** [getchar()] (no echo). On Windows [raw_terminal] is not entered. *)
Definition getchar (WIN : bool) (t : tty) (mode : tmode) : result string * tmode :=
  if WIN then
    let rv := first t in
    let rv := if member rv [String "000" ""; String "224" ""]
              then rv ++ second t else rv in
    (_ <- _translate_ch_to_exc WIN rv ;; Ok rv, mode)
  else
    raw_terminal t mode (fun m =>
      let ch := first t in
      (_ <- _translate_ch_to_exc WIN ch ;; Ok ch, m)).

(** ** Stand-ins for [thefuzz]

    The theorems below are stated for an arbitrary similarity function and
    an arbitrary processor. Where a statement has to be instantiated, these
    two functions are used: [full_process] follows [thefuzz.utils]
    (characters that are not letters, digits or underscores become spaces,
    the text is lower-cased and stripped), and [simple_WRatio] has the
    shape of [fuzz.WRatio] without its token-based variants (the ratio of
    the whole strings, and for strings of different lengths the best ratio
    over the windows of the longer one, scaled by 0.9, or by 0.6 when the
    lengths differ by a factor of more than 8). *)

Definition is_word_char (c : ascii) : bool :=
  let n := nat_of_ascii c in
  ((48 <=? n) && (n <=? 57) || (65 <=? n) && (n <=? 90)
   || (97 <=? n) && (n <=? 122) || (n =? 95))%nat.

Fixpoint replace_non_word (s : string) : string :=
  match s with
  | EmptyString => EmptyString
  | String c s' =>
      String (if is_word_char c then c else " "%char) (replace_non_word s')
  end.

Fixpoint lstrip (s : string) : string :=
  match s with
  | String " " s' => lstrip s'
  | _ => s
  end.

Fixpoint rstrip (s : string) : string :=
  match s with
  | EmptyString => EmptyString
  | String c s' =>
      match rstrip s' with
      | EmptyString => if Ascii.eqb c " " then EmptyString else String c EmptyString
      | r => String c r
      end
  end.

Definition full_process (s : string) : string :=
  rstrip (lstrip (lower (replace_non_word s))).

(** Length of a longest common subsequence. *)
Fixpoint lcs (a b : string) : nat :=
  match a with
  | EmptyString => 0%nat
  | String x a' =>
      (fix inner (b : string) : nat :=
         match b with
         | EmptyString => 0%nat
         | String y b' =>
             if Ascii.eqb x y then S (lcs a' b')
             else Nat.max (lcs a' b) (inner b')
         end) b
  end.

Definition ratio (a b : string) : Z :=
  let total := len a + len b in
  if total =? 0 then 100 else 200 * Z.of_nat (lcs a b) / total.

Fixpoint windows (n : nat) (s : string) : list string :=
  if (String.length s <? n)%nat then []
  else substring 0 n s ::
       match s with
       | EmptyString => []
       | String _ s' => windows n s'
       end.

Definition partial_ratio (a b : string) : Z :=
  let '(short, long) := if len a <=? len b then (a, b) else (b, a) in
  fold_right (fun w best => Z.max (ratio short w) best) 0
             (windows (String.length short) long).

Definition simple_WRatio (a b : string) : Z :=
  if negb (truthy a) || negb (truthy b) then 0
  else
    let base := ratio a b in
    let lmin := Z.min (len a) (len b) in
    let lmax := Z.max (len a) (len b) in
    if 2 * lmax <? 3 * lmin then base
    else
      let partial_scale := if 8 * lmin <? lmax then 60 else 90 in
      Z.max base (partial_ratio a b * partial_scale / 100).

(** ** menu.py *)

Section Model.

(** [fuzz.WRatio(needle, option, full_process=False)] *)
Variable WRatio : string -> string -> Z.

(** [thefuzz.process.default_processor] *)
Variable default_processor : string -> string.

(** The platform switch of [keys.py]. *)
Variable WIN : bool.

(** [fuzz_scorer] *)
Definition fuzz_scorer (needle option : string) : Z :=
  if startswith option needle then
    100 + len needle * 10
  else
    let score := WRatio needle option in
    if 30 <=? score then
      let index := find option needle in
      if -1 <? index then score + (len option - index) else score
    else score.

(** [sorted(..., key=score, reverse=True)]: a stable sort by descending
    score, as an insertion sort. *)
Fixpoint insert_desc (p : string * Z) (l : list (string * Z)) : list (string * Z) :=
  match l with
  | [] => [p]
  | q :: l' => if snd q <=? snd p then p :: q :: l' else q :: insert_desc p l'
  end.

Fixpoint sort_desc (l : list (string * Z)) : list (string * Z) :=
  match l with
  | [] => []
  | p :: l' => insert_desc p (sort_desc l')
  end.

(** [heapq.nlargest(n, l, key=score)], which is [sorted(l, key=score,
    reverse=True)[:n]] and empty for a negative [n]. *)
Definition nlargest (n : Z) (l : list (string * Z)) : list (string * Z) :=
  firstn (Z.to_nat n) (sort_desc l).

(** [process.extractWithoutOrder]: every choice with its score, the scorer
    being applied to the processed query and the processed choice; scores
    below [score_cutoff] are dropped. *)
Definition extractWithoutOrder (query : string) (choices : list string)
    (processor : string -> string) (scorer : string -> string -> Z)
    (score_cutoff : Z) : list (string * Z) :=
  let processed_query := processor query in
  List.filter (fun p => score_cutoff <=? snd p)
    (map (fun choice => (choice, scorer processed_query (processor choice))) choices).

(** [process.extract] *)
Definition extract (query : string) (choices : list string)
    (processor : string -> string) (scorer : string -> string -> Z)
    (limit : Z) : list (string * Z) :=
  nlargest limit (extractWithoutOrder query choices processor scorer 0).

Definition default_limit : Z := 10.
Definition default_threshold : Z := 46.

(** [search_for_matches] *)
Definition search_for_matches (needle : string) (haystacks : list string)
    (limit threshold : Z) (scorer : string -> string -> Z) : list (string * Z) :=
  let items := extract (lower needle) haystacks default_processor scorer limit in
  List.filter (fun '(option, score) => threshold <=? score) items.

(** The [Menu] object. The console is the renderer and is left out. *)
Definition searcher : Type :=
  string -> list string -> Z -> Z -> (string -> string -> Z) -> list (string * Z).

Record Menu : Type := {
  _prompt : string;
  _items : dict;
  _items_filtered : dict;
  _selected_index : Z;
  _done : bool;
  _searcher : searcher;
  _scorer : string -> string -> Z;
  value : option string;
  filter : string
}.

Definition set_items_filtered (self : Menu) (d : dict) : Menu :=
  {| _prompt := _prompt self; _items := _items self; _items_filtered := d;
     _selected_index := _selected_index self; _done := _done self;
     _searcher := _searcher self; _scorer := _scorer self;
     value := value self; filter := filter self |}.

Definition set_selected_index (self : Menu) (i : Z) : Menu :=
  {| _prompt := _prompt self; _items := _items self;
     _items_filtered := _items_filtered self;
     _selected_index := i; _done := _done self;
     _searcher := _searcher self; _scorer := _scorer self;
     value := value self; filter := filter self |}.

Definition set_done (self : Menu) (b : bool) : Menu :=
  {| _prompt := _prompt self; _items := _items self;
     _items_filtered := _items_filtered self;
     _selected_index := _selected_index self; _done := b;
     _searcher := _searcher self; _scorer := _scorer self;
     value := value self; filter := filter self |}.

Definition set_value (self : Menu) (v : option string) : Menu :=
  {| _prompt := _prompt self; _items := _items self;
     _items_filtered := _items_filtered self;
     _selected_index := _selected_index self; _done := _done self;
     _searcher := _searcher self; _scorer := _scorer self;
     value := v; filter := filter self |}.

Definition set_filter (self : Menu) (f : string) : Menu :=
  {| _prompt := _prompt self; _items := _items self;
     _items_filtered := _items_filtered self;
     _selected_index := _selected_index self; _done := _done self;
     _searcher := _searcher self; _scorer := _scorer self;
     value := value self; filter := f |}.

(** [Menu.__init__] *)
Definition __init__ (prompt : string) (items : dict)
    (searcher : searcher) (scorer : string -> string -> Z) : Menu :=
  {| _prompt := prompt; _items := items; _items_filtered := items;
     _selected_index := 0; _done := false;
     _searcher := searcher; _scorer := scorer;
     value := None; filter := "" |}.

(** The [for] loop of [Menu.search]: [filtered] is the dictionary built so
    far. *)
Fixpoint search_loop (items : dict) (results : list (string * Z))
    (filtered : dict) : result dict :=
  match results with
  | [] => Ok filtered
  | (option, _) :: results' =>
      let '(key, _, _) := partition option ":" in
      desc <- dict_get items key ;;
      search_loop items results' (dict_set filtered key desc)
  end.

(** [Menu.search] *)
Definition search (self : Menu) : result Menu :=
  if truthy (filter self) then
    let options := map (fun '(key, desc) => key ++ ": " ++ desc) (_items self) in
    let results :=
      search_for_matches (filter self) options default_limit default_threshold
                         fuzz_scorer in
    filtered <- search_loop (_items self) results [] ;;
    Ok (set_items_filtered self filtered)
  else
    Ok (set_items_filtered self (_items self)).

Definition nonempty {A : Type} (l : list A) : bool :=
  match l with [] => false | _ => true end.

(** [Menu.check_key]: [t] is what the terminal answers to this call of
    [getchar]. *)
Definition check_key (self : Menu) (t : tty) (mode : tmode) : result Menu * tmode :=
  let items := keys (_items_filtered self) in
  let '(r, mode') := getchar WIN t mode in
  (key <- r ;;
   if is_esc key then
     if truthy (filter self) then
       search (set_selected_index (set_filter self "") 0)
     else Raise QuitException
   else
     self <-
       (if is_ok key && nonempty items then
          let self := set_done self true in
          v <- tuple_get items (_selected_index self) ;;
          Ok (set_value self (Some v))
        else if is_down key then
          Ok (set_selected_index self (_selected_index self + 1))
        else if is_up key then
          Ok (set_selected_index self (_selected_index self - 1))
        else
          let self :=
            if is_backspace key then
              set_selected_index (set_filter self (drop_last (filter self))) 0
            else
              set_selected_index (set_filter self (filter self ++ lower key)) 0 in
          search self) ;;
     let n := Z.of_nat (List.length items) in
     let self :=
       if n <=? _selected_index self then set_selected_index self (n - 1)
       else self in
     let self :=
       if _selected_index self <? 0 then set_selected_index self 0 else self in
     Ok self,
   mode').

(** Where a session stands once the given reads are used up: [run] has
    returned, or it is blocked in [getchar] with the menu in some state. *)
Inductive session : Type :=
| Returned (v : option string)
| Waiting (self : Menu).

(** The [while not self._done] loop of [Menu.run]; rendering is left out. *)
Fixpoint while_not_done (self : Menu) (reads : list tty) (mode : tmode)
    : result session * tmode :=
  if _done self then (Ok (Returned (value self)), mode)
  else
    match reads with
    | [] => (Ok (Waiting self), mode)
    | t :: reads' =>
        let '(r, mode') := check_key self t mode in
        match r with
        | Ok self' => while_not_done self' reads' mode'
        | Raise e => (Raise e, mode')
        end
    end.

(** [Menu.run] *)
Definition run (self : Menu) (reads : list tty) (mode : tmode)
    : result session * tmode :=
  let self := set_selected_index (set_done self false) 0 in
  let '(r, mode') := while_not_done self reads mode in
  (match r with
   | Raise KeyboardInterrupt | Raise EOFError | Raise QuitException =>
       Ok (Returned None)
   | _ => r
   end, mode').

(** [Menu.prompt] *)
Definition prompt (text : string) (items : dict) (reads : list tty)
    (mode : tmode) : result session * tmode :=
  run (__init__ text items search_for_matches fuzz_scorer) reads mode.

(** A row of the table that [generate] builds: the two columns and the
    style of the row. *)
Record row : Type := {
  selection : string;
  label : string;
  style : option string
}.

(** [table.add_row(selection, label, style=style)] *)
Definition add_row (table : list row) (selection label : string)
    (style : option string) : list row :=
  (table ++ [{| selection := selection; label := label; style := style |}])%list.

(** The [for] loop of [Menu.generate] over the items from [index] on. *)
Fixpoint generate_rows (self : Menu) (items : dict) (index : Z)
    (table : list row) : list row :=
  match items with
  | [] => table
  | (key, label) :: items' =>
      let table :=
        if _done self && negb (index =? _selected_index self) then table
        else if _selected_index self =? index then
          if _done self then
            let table := add_row table " :heavy_check_mark: " label (Some "green") in
            add_row table " " " " None
          else
            add_row table " :arrow_forward: "
                    ("[underline]" ++ label ++ "[/underline]") (Some "cyan")
        else add_row table "   " label None in
      generate_rows self items' (index + 1) table
  end.

(** [Menu.generate]: the rows of the table, top to bottom. *)
Definition generate (self : Menu) : list row :=
  let items := _items_filtered self in
  let table := generate_rows self items 0 [] in
  let table :=
    if negb (nonempty items) then
      add_row table " " "  [italic]no items match that filter[/italic]" None
    else table in
  if negb (_done self) then
    let table := add_row table " " " " None in
    let table :=
      if truthy (filter self) then
        add_row table "   " (":magnifying_glass_tilted_left: " ++ filter self) None
      else table in
    add_row table " " " " None
  else table.

(** ** Vocabulary of the statements *)

(** Descending order of scores. *)
Definition score_ge (p q : string * Z) : Prop := snd q <= snd p.

(** The entries of a ranking that have the score [s], in their order. *)
Definition with_score (s : Z) (l : list (string * Z)) : list (string * Z) :=
  List.filter (fun p => snd p =? s) l.

(** [l1] is an initial segment of [l2]. *)
Definition initial_segment {A : Type} (l1 l2 : list A) : Prop :=
  exists rest, l2 = (l1 ++ rest)%list.

(** Every haystack entry with the score [search_for_matches] gives it. *)
Definition scored (needle : string) (haystacks : list string)
    (scorer : string -> string -> Z) : list (string * Z) :=
  map (fun choice =>
         (choice, scorer (default_processor (lower needle)) (default_processor choice)))
      haystacks.

(** Two options of a menu about leaving or reading minds, as
    [search_for_matches] would see them. *)
Definition exit_option : string := "exit: None of this nonsense".
Definition minds_option : string :=
  "read-minds: Be able to read the minds of every person you meet, near or far, at will".

(** The part of [check_key] that follows the read of [key]. *)
Definition on_key (self : Menu) (key : string) : result Menu :=
  let items := keys (_items_filtered self) in
  if is_esc key then
    if truthy (filter self) then
      search (set_selected_index (set_filter self "") 0)
    else Raise QuitException
  else
    self <-
      (if is_ok key && nonempty items then
         let self := set_done self true in
         v <- tuple_get items (_selected_index self) ;;
         Ok (set_value self (Some v))
       else if is_down key then
         Ok (set_selected_index self (_selected_index self + 1))
       else if is_up key then
         Ok (set_selected_index self (_selected_index self - 1))
       else
         let self :=
           if is_backspace key then
             set_selected_index (set_filter self (drop_last (filter self))) 0
           else
             set_selected_index (set_filter self (filter self ++ lower key)) 0 in
         search self) ;;
    let n := Z.of_nat (List.length items) in
    let self :=
      if n <=? _selected_index self then set_selected_index self (n - 1)
      else self in
    let self :=
      if _selected_index self <? 0 then set_selected_index self 0 else self in
    Ok self.

(** The two [if] statements that end [check_key], for a view of [n] items. *)
Definition clamp (n : Z) (self : Menu) : Menu :=
  let self :=
    if n <=? _selected_index self then set_selected_index self (n - 1)
    else self in
  if _selected_index self <? 0 then set_selected_index self 0 else self.

(** The keys of a list handled one after the other. *)
Fixpoint feed (self : Menu) (ks : list string) : result Menu :=
  match ks with
  | [] => Ok self
  | key :: ks' => self' <- on_key self key ;; feed self' ks'
  end.

(** A menu that is waiting for the next key, or the exception that ended
    the session. *)
Definition waiting (r : result Menu) : result session :=
  match r with
  | Ok self => Ok (Waiting self)
  | Raise e => Raise e
  end.

(** With an empty filter the view is the whole item set. *)
Definition unfiltered (self : Menu) : Prop :=
  filter self = "" -> _items_filtered self = _items self.

(** The filter after a key that is neither Escape nor Enter. *)
Definition edited_filter (self : Menu) (key : string) : string :=
  if is_down key || is_up key then filter self
  else if is_backspace key then drop_last (filter self)
  else filter self ++ lower key.

(** The number of characters that a list of keys adds to the filter. *)
Definition typed_length (chars : list string) : nat :=
  list_sum (map String.length chars).

(** The cursor invariant of the data model. *)
Definition cursor_ok (self : Menu) : Prop :=
  let n := Z.of_nat (List.length (_items_filtered self)) in
  (n = 0 -> _selected_index self = 0) /\
  (0 < n -> 0 <= _selected_index self < n).

(** No key of the item set contains a colon. *)
Definition colon_free (items : dict) : bool :=
  forallb (fun kd => negb (contains_char ":" (fst kd))) items.

(** [getchar] hands the key on instead of raising. *)
Definition passes (key : string) : bool :=
  match _translate_ch_to_exc WIN key with
  | Ok _ => true
  | Raise _ => false
  end.

(** Keys that [check_key] handles as Up, Down, Backspace or a typed
    character when the view is not consulted: neither Escape nor Enter. *)
Definition is_edit (key : string) : bool :=
  passes key && negb (is_esc key) && negb (is_ok key).

(** Keys that [check_key] appends to the filter. *)
Definition is_char (key : string) : bool :=
  is_edit key && negb (is_down key) && negb (is_up key) && negb (is_backspace key).

Definition DEL : string := String "127" "".

(** The menu with other [searcher] and [scorer] arguments. *)
Definition with_callables (self : Menu) (f : searcher)
    (g : string -> string -> Z) : Menu :=
  {| _prompt := _prompt self; _items := _items self;
     _items_filtered := _items_filtered self;
     _selected_index := _selected_index self; _done := _done self;
     _searcher := f; _scorer := g;
     value := value self; filter := filter self |}.

(** Two sessions that an observer of the view, the cursor, the filter and
    the result cannot tell apart. *)
Definition same_session (r1 r2 : result session) : Prop :=
  match r1, r2 with
  | Ok (Returned v1), Ok (Returned v2) => v1 = v2
  | Ok (Waiting s1), Ok (Waiting s2) =>
      _items_filtered s1 = _items_filtered s2 /\
      filter s1 = filter s2 /\
      _selected_index s1 = _selected_index s2 /\
      _items s1 = _items s2 /\
      value s1 = value s2
  | Raise e1, Raise e2 => e1 = e2
  | _, _ => False
  end.

(** The terminal cannot be put into raw mode. *)
Definition acquisition_fails (t : tty) : bool :=
  negb (stdin_isatty t) && negb (dev_tty_opens t)
  || negb (tcgetattr_ok t) || negb (setraw_ok t).

(** ** Sample sessions

    The three fruits of the specification's scenarios, some keys, and two
    terminals that cannot be read. *)

Definition fruit : dict := [("a", "Apple"); ("b", "Banana"); ("c", "Cherry")].

(** The menu that [Menu.prompt] builds. *)
Definition fresh_menu (items : dict) : Menu :=
  __init__ "" items search_for_matches fuzz_scorer.

(** The menu after [zq] has been typed: nothing matches. *)
Definition no_match_menu : Menu :=
  set_items_filtered (set_filter (fresh_menu fruit) "zq") [].

(** The menu after [ba] has been typed. *)
Definition banana_menu : Menu :=
  set_items_filtered (set_filter (fresh_menu fruit) "ba") [("b", "Banana")].

Definition ENTER : string := String CR "".
Definition ESCAPE : string := String ESC "".
Definition DOWN : string := String ESC "[B".
Definition UP : string := String ESC "[A".

(** Standard input is not a terminal and there is no [/dev/tty]. *)
Definition no_terminal : tty :=
  {| stdin_isatty := false; dev_tty_opens := false; tcgetattr_ok := true;
     setraw_ok := true; first := ""; second := "" |}.

(** The Up arrow as [msvcrt.getwch] delivers it: a lead character and [H]. *)
Definition windows_up_arrow : tty :=
  {| stdin_isatty := true; dev_tty_opens := true; tcgetattr_ok := true;
     setraw_ok := true; first := String "224" ""; second := "H" |}.

(** Standard input is a terminal whose attributes cannot be read. *)
Definition no_termios : tty :=
  {| stdin_isatty := true; dev_tty_opens := true; tcgetattr_ok := false;
     setraw_ok := true; first := ""; second := "" |}.

(** ** Vocabulary of the further properties *)

Definition CTRL_C : string := String "003" "".
Definition CTRL_D : string := String "004" "".
Definition CTRL_Z : string := String "026" "".

(** The key that ends the input on this platform. *)
Definition end_of_input : string := if WIN then CTRL_Z else CTRL_D.

(** The lead characters of a special key on Windows. *)
Definition special_lead (ch : string) : bool :=
  member ch [String "000" ""; String "224" ""].

(** The search candidate of an item. *)
Definition candidate (kd : string * string) : string :=
  fst kd ++ ": " ++ snd kd.

(** The rows of [generate] for a blank line, a chosen item, the item under
    the cursor, any other item, and the filter. *)
Definition blank_row : row :=
  {| selection := " "; label := " "; style := None |}.
Definition chosen_row (text : string) : row :=
  {| selection := " :heavy_check_mark: "; label := text; style := Some "green" |}.
Definition cursor_row (text : string) : row :=
  {| selection := " :arrow_forward: ";
     label := "[underline]" ++ text ++ "[/underline]"; style := Some "cyan" |}.
Definition plain_row (text : string) : row :=
  {| selection := "   "; label := text; style := None |}.
Definition no_match_row : row :=
  {| selection := " "; label := "  [italic]no items match that filter[/italic]";
     style := None |}.
Definition filter_row (f : string) : row :=
  {| selection := "   "; label := ":magnifying_glass_tilted_left: " ++ f;
     style := None |}.

(** The rows below the items while the menu is active. *)
Definition footer (self : Menu) : list row :=
  if truthy (filter self) then [blank_row; filter_row (filter self); blank_row]
  else [blank_row; blank_row].

(** The entries of the view are entries of the item set. *)
Definition view_of_items (self : Menu) : Prop :=
  forall kd, In kd (_items_filtered self) -> In kd (_items self).

(** ** Strings *)

Lemma len_nonneg (s : string) : 0 <= len s.
Proof. unfold len. lia. Qed.

Lemma startswith_refl (s : string) : startswith s s = true.
Proof.
  induction s as [|c s IH]; simpl; [reflexivity|].
  now rewrite Ascii.eqb_refl, IH.
Qed.

Lemma startswith_append (p s : string) : startswith (p ++ s) p = true.
Proof.
  induction p as [|c p IH]; simpl; [reflexivity|].
  now rewrite Ascii.eqb_refl, IH.
Qed.

Lemma startswith_len (s p : string) : startswith s p = true -> len p <= len s.
Proof.
  unfold len. revert s.
  induction p as [|c p IH]; intros s H; simpl in *; [lia|].
  destruct s as [|d s]; [discriminate|].
  apply andb_true_iff in H as [_ H]. apply IH in H. simpl. lia.
Qed.

(** ** The scorer *)

Lemma fuzz_scorer_prefix (needle option : string) :
  startswith option needle = true -> fuzz_scorer needle option = 100 + 10 * len needle.
Proof.
  intros H. unfold fuzz_scorer. rewrite H. lia.
Qed.

Lemma fuzz_scorer_no_prefix (needle option : string) :
  startswith option needle = false ->
  fuzz_scorer needle option =
    if (30 <=? WRatio needle option) && (-1 <? find option needle)
    then WRatio needle option + (len option - find option needle)
    else WRatio needle option.
Proof.
  intros H. unfold fuzz_scorer. rewrite H. cbv zeta.
  destruct (30 <=? WRatio needle option); simpl; [|reflexivity].
  destruct (-1 <? find option needle); reflexivity.
Qed.

(** Without the substring bonus a score outside the prefix rule is the base
    score. *)
Lemma fuzz_scorer_no_bonus (needle option : string) :
  startswith option needle = false ->
  find option needle = -1 ->
  fuzz_scorer needle option = WRatio needle option.
Proof.
  intros H F. rewrite fuzz_scorer_no_prefix by assumption. rewrite F.
  now rewrite andb_false_r.
Qed.

(** Where the substring bonus does not apply, a prefix match does outrank
    an option that is not one, for a base score of at most 100. *)
Lemma prefix_outranks_without_bonus (needle o1 o2 : string) :
  WRatio needle o2 <= 100 ->
  startswith o1 needle = true ->
  startswith o2 needle = false ->
  find o2 needle = -1 ->
  fuzz_scorer needle o2 < fuzz_scorer needle o1.
Proof.
  intros Hw H1 H2 Hf.
  rewrite (fuzz_scorer_prefix needle o1 H1), (fuzz_scorer_no_bonus needle o2 H2 Hf).
  destruct needle as [|c needle]; [discriminate|].
  unfold len. simpl String.length. lia.
Qed.

(** ** The ranking *)

Lemma Forall_insert_desc (P : string * Z -> Prop) p l :
  P p -> Forall P l -> Forall P (insert_desc p l).
Proof.
  intros Hp Hl. induction Hl as [|q l Hq Hl IH]; simpl.
  - now constructor.
  - destruct (snd q <=? snd p); repeat constructor; assumption.
Qed.

Lemma insert_desc_sorted p l :
  StronglySorted score_ge l -> StronglySorted score_ge (insert_desc p l).
Proof.
  induction 1 as [|q l Hs IH Hq]; simpl.
  - repeat constructor.
  - destruct (snd q <=? snd p) eqn:E.
    + apply Z.leb_le in E. constructor.
      * now constructor.
      * constructor; [exact E|].
        eapply Forall_impl; [|exact Hq].
        intros r Hr. unfold score_ge in *. lia.
    + apply Z.leb_gt in E. constructor; [exact IH|].
      apply Forall_insert_desc; [|exact Hq].
      unfold score_ge. lia.
Qed.

Lemma sort_desc_sorted l : StronglySorted score_ge (sort_desc l).
Proof.
  induction l as [|p l IH]; simpl; [constructor|].
  now apply insert_desc_sorted.
Qed.

Lemma Forall_sort_desc (P : string * Z -> Prop) l :
  Forall P l -> Forall P (sort_desc l).
Proof.
  induction 1; simpl; [constructor|]. now apply Forall_insert_desc.
Qed.

Lemma In_firstn_In {A : Type} n (l : list A) x : In x (firstn n l) -> In x l.
Proof.
  intros H. rewrite <- (firstn_skipn n l). apply in_or_app. now left.
Qed.

Lemma firstn_sorted n l :
  StronglySorted score_ge l -> StronglySorted score_ge (firstn n l).
Proof.
  intros H. revert n.
  induction H as [|q l Hs IH Hq]; intros [|n]; simpl; try constructor.
  - apply IH.
  - rewrite Forall_forall in *. intros r Hr. apply Hq.
    eapply In_firstn_In; eassumption.
Qed.

Lemma filter_sorted (f : string * Z -> bool) l :
  StronglySorted score_ge l -> StronglySorted score_ge (List.filter f l).
Proof.
  induction 1 as [|q l Hs IH Hq]; simpl; [constructor|].
  destruct (f q); [|exact IH].
  constructor; [exact IH|].
  rewrite Forall_forall in *. intros r Hr.
  apply filter_In in Hr as [Hr _]. now apply Hq.
Qed.

Lemma filter_length_le {A : Type} (f : A -> bool) (l : list A) :
  (List.length (List.filter f l) <= List.length l)%nat.
Proof.
  induction l as [|x l IH]; simpl; [lia|].
  destruct (f x); simpl; lia.
Qed.

(** The sort is stable: entries of one score keep their order. *)
Lemma with_score_insert_desc s p l :
  with_score s (insert_desc p l) = with_score s (p :: l).
Proof.
  unfold with_score.
  induction l as [|q l IH]; simpl; [reflexivity|].
  destruct (snd q <=? snd p) eqn:E; simpl; [reflexivity|].
  rewrite IH. simpl.
  apply Z.leb_gt in E.
  destruct (snd p =? s) eqn:Ep; [|reflexivity].
  apply Z.eqb_eq in Ep.
  destruct (snd q =? s) eqn:Eq; [|reflexivity].
  apply Z.eqb_eq in Eq. lia.
Qed.

Lemma with_score_sort_desc s l : with_score s (sort_desc l) = with_score s l.
Proof.
  induction l as [|p l IH]; simpl; [reflexivity|].
  rewrite with_score_insert_desc. unfold with_score in *. simpl.
  now rewrite IH.
Qed.

Lemma filter_firstn_initial {A : Type} (f : A -> bool) n (l : list A) :
  initial_segment (List.filter f (firstn n l)) (List.filter f l).
Proof.
  exists (List.filter f (skipn n l)).
  rewrite <- filter_app. now rewrite firstn_skipn.
Qed.

Lemma initial_segment_trans {A : Type} (l1 l2 l3 : list A) :
  initial_segment l1 l2 -> initial_segment l2 l3 -> initial_segment l1 l3.
Proof.
  intros [r1 ->] [r2 ->]. exists (r1 ++ r2)%list. now rewrite app_assoc.
Qed.

(** Keeping the scores of at least [t] keeps or drops the entries of one
    score together. *)
Lemma with_score_cut s t l :
  with_score s (List.filter (fun p => t <=? snd p) l) =
    if t <=? s then with_score s l else [].
Proof.
  unfold with_score.
  induction l as [|p l IH]; simpl; [now destruct (t <=? s)|].
  destruct (t <=? snd p) eqn:Et; simpl; rewrite IH;
    destruct (snd p =? s) eqn:Es; try reflexivity;
    apply Z.eqb_eq in Es; subst s; rewrite Et; reflexivity.
Qed.

Lemma initial_segment_nil {A : Type} (l : list A) : initial_segment [] l.
Proof. now exists l. Qed.

Lemma initial_segment_refl {A : Type} (l : list A) : initial_segment l l.
Proof. exists []. now rewrite app_nil_r. Qed.

Lemma threshold_filter_eq threshold l :
  List.filter (fun '(option, score) => threshold <=? score) l =
  List.filter (fun p : string * Z => threshold <=? snd p) l.
Proof.
  apply filter_ext. now intros [o sc].
Qed.

Lemma extract_unfold query choices processor scorer limit :
  extract query choices processor scorer limit =
  firstn (Z.to_nat limit)
    (sort_desc (List.filter (fun p => 0 <=? snd p)
       (map (fun choice => (choice, scorer (processor query) (processor choice)))
            choices))).
Proof. reflexivity. Qed.

(** ** Claims about the matcher *)

(** C2, at an input where it fails: the needle ["e"] is a prefix of
    [exit_option] and occurs in [minds_option] at index 1 without being a
    prefix of it. The prefix match scores [100 + 10 * len needle = 110] as
    the claim says, but as soon as the base score of the other option
    reaches the bonus threshold of 30, the substring bonus
    [len option - index = 83] lifts the option that is not a prefix match
    above the prefix match. *)
Theorem substring_bonus_outranks_prefix :
  30 <= WRatio "e" minds_option ->
  startswith exit_option "e" = true /\
  startswith minds_option "e" = false /\
  fuzz_scorer "e" exit_option = 100 + 10 * len "e" /\
  fuzz_scorer "e" minds_option = WRatio "e" minds_option + 83 /\
  fuzz_scorer "e" exit_option < fuzz_scorer "e" minds_option.
Proof.
  intros Hbase.
  assert (Hp : startswith exit_option "e" = true) by reflexivity.
  assert (Hn : startswith minds_option "e" = false) by reflexivity.
  assert (Hf : find minds_option "e" = 1) by reflexivity.
  assert (Hl : len minds_option = 84) by reflexivity.
  assert (He : fuzz_scorer "e" exit_option = 110)
    by (rewrite fuzz_scorer_prefix; [reflexivity | exact Hp]).
  assert (Hm : fuzz_scorer "e" minds_option = WRatio "e" minds_option + 83).
  { rewrite fuzz_scorer_no_prefix by exact Hn. rewrite Hf, Hl.
    apply Z.leb_le in Hbase. rewrite Hbase. simpl. lia. }
  repeat split; try assumption.
  rewrite He, Hm. lia.
Qed.

(** C6, as amended: when the option starts with the needle as it is written
    (the comparison folds no case), the score is [100 + 10 * len needle],
    which is at least 100, and of two such needles of one option the longer
    one scores strictly higher. *)
Theorem prefix_score_grows (option n1 n2 : string) :
  startswith option n1 = true ->
  startswith option n2 = true ->
  len n1 < len n2 ->
  fuzz_scorer n1 option = 100 + 10 * len n1 /\
  100 <= fuzz_scorer n1 option /\
  fuzz_scorer n1 option < fuzz_scorer n2 option.
Proof.
  intros H1 H2 Hlt.
  rewrite (fuzz_scorer_prefix n1 option H1), (fuzz_scorer_prefix n2 option H2).
  pose proof (len_nonneg n1). lia.
Qed.

(** C3: [search_for_matches] returns at most [limit] pairs, each with a
    score of at least [threshold], in non-increasing order of score; the
    pairs of any one score stand in the order of the haystack (they are an
    initial segment of the haystack entries of that score), so ties keep
    the order of the ranking. The defaults are a limit of 10 and a
    threshold of 46. *)
Theorem search_for_matches_ranked (needle : string) (haystacks : list string)
    (limit threshold : Z) (scorer : string -> string -> Z) :
  0 <= limit ->
  Z.of_nat (List.length (search_for_matches needle haystacks limit threshold scorer))
    <= limit /\
  Forall (fun p => threshold <= snd p)
    (search_for_matches needle haystacks limit threshold scorer) /\
  StronglySorted score_ge
    (search_for_matches needle haystacks limit threshold scorer) /\
  (forall s,
     initial_segment
       (with_score s (search_for_matches needle haystacks limit threshold scorer))
       (with_score s (scored needle haystacks scorer))) /\
  default_limit = 10 /\ default_threshold = 46.
Proof.
  intros Hlimit.
  unfold search_for_matches. cbv zeta.
  rewrite threshold_filter_eq, extract_unfold.
  fold (scored needle haystacks scorer).
  set (ranking := sort_desc (List.filter (fun p => 0 <=? snd p)
                               (scored needle haystacks scorer))).
  repeat split.
  - pose proof (filter_length_le (fun p : string * Z => threshold <=? snd p)
                  (firstn (Z.to_nat limit) ranking)) as Hf.
    pose proof (firstn_le_length (Z.to_nat limit) ranking) as Hn.
    lia.
  - apply Forall_forall. intros p Hp.
    apply filter_In in Hp as [_ Hp]. now apply Z.leb_le.
  - apply filter_sorted, firstn_sorted, sort_desc_sorted.
  - intros s. rewrite with_score_cut.
    destruct (threshold <=? s); [|apply initial_segment_nil].
    eapply initial_segment_trans; [apply filter_firstn_initial|].
    fold (with_score s ranking). unfold ranking.
    rewrite with_score_sort_desc, with_score_cut.
    destruct (0 <=? s); [apply initial_segment_refl|apply initial_segment_nil].
Qed.

(** ** The key source *)

Lemma append_empty_r (s : string) : s ++ "" = s.
Proof. induction s as [|c s IH]; simpl; [reflexivity|now rewrite IH]. Qed.

Lemma getchar_mode (t : tty) (mode : tmode) : snd (getchar WIN t mode) = mode.
Proof.
  unfold getchar, raw_terminal. destruct WIN; [reflexivity|].
  destruct (negb (stdin_isatty t) && negb (dev_tty_opens t)); [reflexivity|].
  destruct (negb (tcgetattr_ok t)); [reflexivity|].
  destruct (negb (setraw_ok t)); reflexivity.
Qed.

Lemma getchar_typed (ch : string) (mode : tmode) :
  getchar WIN (typed ch) mode = (_ <- _translate_ch_to_exc WIN ch ;; Ok ch, mode).
Proof.
  unfold getchar, raw_terminal. destruct WIN; simpl; [|reflexivity].
  rewrite append_empty_r.
  now destruct (_ || _).
Qed.

Lemma getchar_typed_passes (ch : string) (mode : tmode) :
  passes ch = true -> getchar WIN (typed ch) mode = (Ok ch, mode).
Proof.
  intros H. rewrite getchar_typed. unfold passes in H.
  destruct (_translate_ch_to_exc WIN ch) as [[]|e]; [reflexivity|discriminate].
Qed.

Lemma is_ok_cases (key : string) :
  is_ok key = true ->
  key = String CR "" \/ key = String LF (String CR "") \/ key = String CR (String LF "").
Proof.
  unfold is_ok, member, OK_BUTTON. simpl. intros H.
  repeat (apply orb_true_iff in H as [H|H]);
    try (apply String.eqb_eq in H; auto); discriminate.
Qed.

(** Enter is none of the other keys, passes [getchar], and is its own
    lower case. *)
Lemma is_ok_facts (key : string) :
  is_ok key = true ->
  passes key = true /\ is_esc key = false /\ is_down key = false /\
  is_up key = false /\ is_backspace key = false /\ lower key = key /\
  truthy key = true.
Proof.
  intros H. unfold passes, _translate_ch_to_exc.
  destruct (is_ok_cases key H) as [-> | [-> | ->]]; destruct WIN; repeat split.
Qed.

(** ** The state machine, key by key *)

Lemma check_key_on_key (self : Menu) (t : tty) (mode : tmode) :
  check_key self t mode =
    (key <- fst (getchar WIN t mode) ;; on_key self key, snd (getchar WIN t mode)).
Proof.
  unfold check_key, on_key. now destruct (getchar WIN t mode).
Qed.

Lemma check_key_typed (self : Menu) (key : string) (mode : tmode) :
  passes key = true -> check_key self (typed key) mode = (on_key self key, mode).
Proof.
  intros H. rewrite check_key_on_key, getchar_typed_passes by exact H.
  reflexivity.
Qed.

Lemma on_key_unfold (self : Menu) (key : string) :
  on_key self key =
    if is_esc key then
      if truthy (filter self) then
        search (set_selected_index (set_filter self "") 0)
      else Raise QuitException
    else
      self' <-
        (if is_ok key && nonempty (keys (_items_filtered self)) then
           v <- tuple_get (keys (_items_filtered self)) (_selected_index self) ;;
           Ok (set_value (set_done self true) (Some v))
         else if is_down key then
           Ok (set_selected_index self (_selected_index self + 1))
         else if is_up key then
           Ok (set_selected_index self (_selected_index self - 1))
         else if is_backspace key then
           search (set_selected_index (set_filter self (drop_last (filter self))) 0)
         else
           search (set_selected_index (set_filter self (filter self ++ lower key)) 0)) ;;
      Ok (clamp (Z.of_nat (List.length (keys (_items_filtered self)))) self').
Proof.
  unfold on_key, clamp. destruct (is_esc key); [reflexivity|].
  destruct (is_ok key && _); [reflexivity|].
  destruct (is_down key); [reflexivity|].
  destruct (is_up key); [reflexivity|].
  now destruct (is_backspace key).
Qed.

Lemma clamp_fields (n : Z) (self : Menu) :
  _items (clamp n self) = _items self /\
  _items_filtered (clamp n self) = _items_filtered self /\
  _done (clamp n self) = _done self /\
  value (clamp n self) = value self /\
  filter (clamp n self) = filter self /\
  _searcher (clamp n self) = _searcher self /\
  _scorer (clamp n self) = _scorer self.
Proof.
  unfold clamp.
  destruct (n <=? _selected_index self); simpl;
    match goal with |- context [if ?b then _ else _] => destruct b end;
    repeat split.
Qed.

(** Clamping against the length of the view gives a cursor inside it. *)
Lemma clamp_cursor_ok (self : Menu) :
  cursor_ok (clamp (Z.of_nat (List.length (_items_filtered self))) self).
Proof.
  unfold cursor_ok. cbv zeta.
  destruct (clamp_fields (Z.of_nat (List.length (_items_filtered self))) self)
    as (_ & -> & _).
  set (n := Z.of_nat (List.length (_items_filtered self))).
  unfold clamp.
  destruct (n <=? _selected_index self) eqn:E1; simpl.
  - destruct (n - 1 <? 0) eqn:E2; simpl; lia.
  - destruct (_selected_index self <? 0) eqn:E2; simpl; lia.
Qed.

(** A cursor at 0 stays at 0, whatever length it is clamped against. *)
Lemma clamp_zero (n : Z) (self : Menu) :
  0 <= n -> _selected_index self = 0 -> _selected_index (clamp n self) = 0.
Proof.
  intros Hn H. unfold clamp. rewrite H.
  destruct (n <=? 0) eqn:E1; simpl.
  - destruct (n - 1 <? 0) eqn:E2; simpl; lia.
  - rewrite H. change (0 <? 0) with false. exact H.
Qed.

Lemma clamp_in_range (n : Z) (self : Menu) :
  0 <= _selected_index self < n -> clamp n self = self.
Proof.
  intros H. unfold clamp.
  destruct (n <=? _selected_index self) eqn:E1; [lia|].
  destruct (_selected_index self <? 0) eqn:E2; [lia|reflexivity].
Qed.

Lemma cursor_ok_zero (self : Menu) : _selected_index self = 0 -> cursor_ok self.
Proof. unfold cursor_ok. cbv zeta. intros ->. lia. Qed.

(** ** Filter recomputation *)

Lemma truthy_false (s : string) : truthy s = false <-> s = "".
Proof. destruct s; simpl; split; congruence. Qed.

Lemma contains_char_cons (c a : ascii) (s : string) :
  contains_char c (String a s) = false ->
  Ascii.eqb a c = false /\ contains_char c s = false.
Proof.
  unfold contains_char. simpl.
  destruct (Ascii.eqb a c); simpl; [discriminate|].
  destruct (partition s c) as [[before found] after]. simpl. auto.
Qed.

Lemma partition_before (c : ascii) (k rest : string) :
  contains_char c k = false ->
  partition (k ++ String c rest) c = (k, String c "", rest).
Proof.
  induction k as [|a k IH]; intros H; simpl.
  - now rewrite Ascii.eqb_refl.
  - apply contains_char_cons in H as [Ha Hk].
    rewrite Ha, (IH Hk). reflexivity.
Qed.

Lemma dict_get_In (items : dict) (k v : string) :
  In (k, v) items -> exists v', dict_get items k = Ok v'.
Proof.
  induction items as [|[k0 v0] items IH]; intros H; [contradiction|].
  simpl. destruct (String.eqb k0 k) eqn:E; [eauto|].
  destruct H as [H|H]; [|auto].
  inversion H; subst. now rewrite String.eqb_refl in E.
Qed.

Lemma dict_get_raise (items : dict) (k : string) (e : exn) :
  dict_get items k = Raise e -> e = KeyError k /\ ~ In k (keys items).
Proof.
  induction items as [|[k0 v0] items IH]; simpl; intros H.
  - inversion H. auto.
  - destruct (String.eqb k0 k) eqn:E; [discriminate|].
    apply IH in H as [-> H]. split; [reflexivity|].
    intros [<-|Hin]; [now rewrite String.eqb_refl in E|auto].
Qed.

Lemma search_loop_raise (items : dict) (results : list (string * Z))
    (filtered : dict) (e : exn) :
  search_loop items results filtered = Raise e -> exists k, e = KeyError k.
Proof.
  revert filtered.
  induction results as [|[option sc] results IH]; intros filtered H; simpl in H.
  - discriminate.
  - destruct (partition option ":") as [[key found] after].
    destruct (dict_get items key) as [desc|e'] eqn:G; simpl in H.
    + eauto.
    + inversion H; subst. apply dict_get_raise in G as [-> _]. eauto.
Qed.

Lemma search_loop_ok (items : dict) (results : list (string * Z)) (filtered : dict) :
  (forall option sc, In (option, sc) results ->
     exists k v, In (k, v) items /\ contains_char ":" k = false /\
                 option = k ++ ": " ++ v) ->
  exists d, search_loop items results filtered = Ok d.
Proof.
  revert filtered.
  induction results as [|[option sc] results IH]; intros filtered H; simpl.
  - eauto.
  - destruct (H option sc (or_introl eq_refl)) as (k & v & Hin & Hk & ->).
    simpl. rewrite (partition_before ":" k (String " " v) Hk).
    destruct (dict_get_In items k v Hin) as [v' ->]. simpl.
    apply IH. intros o s Ho. apply (H o s). now right.
Qed.

Lemma In_insert_desc x p l : In x (insert_desc p l) -> x = p \/ In x l.
Proof.
  induction l as [|q l IH]; simpl.
  - intros [<-|[]]. now left.
  - destruct (snd q <=? snd p); simpl.
    + intros [<-|H]; auto.
    + intros [<-|H]; auto. destruct (IH H); auto.
Qed.

Lemma In_sort_desc x l : In x (sort_desc l) -> In x l.
Proof.
  induction l as [|p l IH]; simpl; [auto|].
  intros H. apply In_insert_desc in H as [->|H]; auto.
Qed.

(** Every result of the search is one of the haystack entries. *)
Lemma search_for_matches_In needle haystacks limit threshold scorer option sc :
  In (option, sc) (search_for_matches needle haystacks limit threshold scorer) ->
  In option haystacks.
Proof.
  unfold search_for_matches. cbv zeta. rewrite extract_unfold.
  intros H. apply filter_In in H as [H _].
  apply In_firstn_In, In_sort_desc in H.
  apply filter_In in H as [H _].
  apply in_map_iff in H as (choice & E & H). now inversion E; subst.
Qed.

Lemma colon_free_In (items : dict) (k v : string) :
  colon_free items = true -> In (k, v) items -> contains_char ":" k = false.
Proof.
  unfold colon_free. intros H Hin.
  rewrite forallb_forall in H. specialize (H _ Hin). simpl in H.
  now apply negb_true_iff in H.
Qed.

(** [search] either sets the view, to the whole item set when the filter
    is empty, or raises [KeyError], which takes a key with a colon. *)
Lemma search_cases (self : Menu) :
  (exists d, search self = Ok (set_items_filtered self d) /\
             (filter self = "" -> d = _items self)) \/
  (exists k, search self = Raise (KeyError k) /\ colon_free (_items self) = false).
Proof.
  unfold search. destruct (truthy (filter self)) eqn:T.
  - destruct (search_loop _ _ _) as [d|e] eqn:L; simpl.
    + left. exists d. split; [reflexivity|].
      intros E. apply truthy_false in E. congruence.
    + right. destruct (search_loop_raise _ _ _ _ L) as [k ->]. exists k.
      split; [reflexivity|].
      destruct (colon_free (_items self)) eqn:C; [|reflexivity].
      exfalso.
      destruct (search_loop_ok (_items self)
                  (search_for_matches (filter self)
                     (map (fun '(key, desc) => key ++ ": " ++ desc) (_items self))
                     default_limit default_threshold fuzz_scorer) [])
        as [d Hd]; [|congruence].
      intros option sc Hin. apply search_for_matches_In in Hin.
      apply in_map_iff in Hin as ([k' v'] & <- & Hin).
      exists k', v'. split; [exact Hin|]. split; [|reflexivity].
      eapply colon_free_In; eassumption.
  - left. exists (_items self). split; [reflexivity|auto].
Qed.

Lemma search_empty_filter (self : Menu) :
  filter self = "" -> search self = Ok (set_items_filtered self (_items self)).
Proof. intros E. unfold search. now rewrite E. Qed.

Lemma keys_length (d : dict) : List.length (keys d) = List.length d.
Proof. apply length_map. Qed.

(** Whatever the key, a state that [check_key] hands back has its cursor
    inside the view. *)
Lemma on_key_cursor_ok (self self' : Menu) (key : string) :
  on_key self key = Ok self' -> cursor_ok self'.
Proof.
  rewrite on_key_unfold, keys_length.
  set (n := Z.of_nat (List.length (_items_filtered self))).
  destruct (is_esc key).
  { destruct (truthy (filter self)); [|discriminate].
    intros H.
    destruct (search_cases (set_selected_index (set_filter self "") 0))
      as [(d & E & _)|(k & E & _)]; rewrite E in H; inversion H; subst.
    now apply cursor_ok_zero. }
  destruct (is_ok key && _).
  { destruct (tuple_get _ _) as [v|e]; simpl; intros H; inversion H; subst.
    apply (clamp_cursor_ok (set_value (set_done self true) (Some v))). }
  destruct (is_down key).
  { simpl. intros H; inversion H; subst.
    apply (clamp_cursor_ok (set_selected_index self (_selected_index self + 1))). }
  destruct (is_up key).
  { simpl. intros H; inversion H; subst.
    apply (clamp_cursor_ok (set_selected_index self (_selected_index self - 1))). }
  assert (Hs : forall f,
    (self0 <- search (set_selected_index (set_filter self f) 0) ;; Ok (clamp n self0))
      = Ok self' -> cursor_ok self').
  { intros f H.
    destruct (search_cases (set_selected_index (set_filter self f) 0))
      as [(d & E & _)|(k & E & _)]; rewrite E in H; simpl in H; inversion H; subst.
    apply cursor_ok_zero, clamp_zero; [unfold n; lia|reflexivity]. }
  destruct (is_backspace key); apply Hs.
Qed.

Lemma is_edit_facts (key : string) :
  is_edit key = true -> passes key = true /\ is_esc key = false /\ is_ok key = false.
Proof.
  unfold is_edit. intros H.
  apply andb_true_iff in H as [H Hok]. apply andb_true_iff in H as [Hp Hesc].
  apply negb_true_iff in Hok, Hesc. auto.
Qed.

(** A key that is neither Escape nor Enter moves the cursor or edits the
    filter; the only failure is the [KeyError] of [search]. *)
Lemma on_key_edit (self : Menu) (key : string) :
  is_edit key = true ->
  (exists self',
     on_key self key = Ok self' /\ cursor_ok self' /\
     _done self' = _done self /\ _items self' = _items self /\
     value self' = value self /\ filter self' = edited_filter self key /\
     (unfiltered self -> unfiltered self')) \/
  (exists k, on_key self key = Raise (KeyError k) /\ colon_free (_items self) = false).
Proof.
  intros H. destruct (is_edit_facts key H) as (_ & Hesc & Hok).
  pose proof (fun self' => on_key_cursor_ok self self' key) as Hc.
  revert Hc. rewrite on_key_unfold, Hesc, Hok, keys_length. simpl.
  unfold edited_filter.
  set (n := Z.of_nat (List.length (_items_filtered self))).
  destruct (is_down key); simpl.
  { intros Hc. left. eexists. split; [reflexivity|].
    split; [now eapply Hc|].
    destruct (clamp_fields n (set_selected_index self (_selected_index self + 1)))
      as (E1 & E2 & E3 & E4 & E5 & _).
    unfold unfiltered. rewrite E1, E2, E3, E4, E5. simpl. auto. }
  destruct (is_up key); simpl.
  { intros Hc. left. eexists. split; [reflexivity|].
    split; [now eapply Hc|].
    destruct (clamp_fields n (set_selected_index self (_selected_index self - 1)))
      as (E1 & E2 & E3 & E4 & E5 & _).
    unfold unfiltered. rewrite E1, E2, E3, E4, E5. simpl. auto. }
  assert (Hs : forall f,
    (forall self', (self0 <- search (set_selected_index (set_filter self f) 0) ;;
                    Ok (clamp n self0)) = Ok self' -> cursor_ok self') ->
    (exists self',
       (self0 <- search (set_selected_index (set_filter self f) 0) ;;
        Ok (clamp n self0)) = Ok self' /\ cursor_ok self' /\
       _done self' = _done self /\ _items self' = _items self /\
       value self' = value self /\ filter self' = f /\
       (unfiltered self -> unfiltered self')) \/
    (exists k,
       (self0 <- search (set_selected_index (set_filter self f) 0) ;;
        Ok (clamp n self0)) = Raise (KeyError k) /\
       colon_free (_items self) = false)).
  { intros f Hc.
    destruct (search_cases (set_selected_index (set_filter self f) 0))
      as [(d & E & Hd)|(k & E & Hk)]; rewrite E in *; simpl in *.
    - left. eexists. split; [reflexivity|].
      split; [now eapply Hc|].
      destruct (clamp_fields n
        (set_items_filtered (set_selected_index (set_filter self f) 0) d))
        as (E1 & E2 & E3 & E4 & E5 & _).
      unfold unfiltered. rewrite E1, E2, E3, E4, E5. simpl.
      repeat split. intros _ Ef. auto.
    - right. eauto. }
  destruct (is_backspace key); apply Hs.
Qed.

(** ** Sequences of keys *)

Lemma feed_app (self : Menu) (ks1 ks2 : list string) :
  feed self (ks1 ++ ks2)%list = (self' <- feed self ks1 ;; feed self' ks2).
Proof.
  revert self. induction ks1 as [|k ks1 IH]; intros self; simpl; [reflexivity|].
  destruct (on_key self k); simpl; [apply IH|reflexivity].
Qed.

(** While the keys are neither Escape nor Enter the loop of [run] is
    [feed], and the session keeps waiting. *)
Lemma while_not_done_feed (ks : list string) (self : Menu) (mode : tmode) :
  _done self = false ->
  Forall (fun key => is_edit key = true) ks ->
  while_not_done self (map typed ks) mode = (waiting (feed self ks), mode).
Proof.
  intros Hd Hks. revert self Hd.
  induction Hks as [|k ks Hk Hks IH]; intros self Hd; simpl; rewrite Hd.
  - reflexivity.
  - destruct (is_edit_facts k Hk) as (Hp & _).
    rewrite (check_key_typed self k mode Hp).
    destruct (on_key_edit self k Hk) as [(self' & E & _ & Hd' & _)|(e & E & _)];
      rewrite E; simpl; [|reflexivity].
    apply IH. congruence.
Qed.

(** What a sequence of such keys leaves behind. *)
Lemma feed_edit (ks : list string) (self : Menu) :
  Forall (fun key => is_edit key = true) ks ->
  match feed self ks with
  | Ok self' =>
      (cursor_ok self -> cursor_ok self') /\
      _done self' = _done self /\ _items self' = _items self /\
      (unfiltered self -> unfiltered self')
  | Raise (KeyError _) => colon_free (_items self) = false
  | Raise _ => False
  end.
Proof.
  intros Hks. revert self.
  induction Hks as [|k ks Hk Hks IH]; intros self; simpl; [auto|].
  destruct (on_key_edit self k Hk)
    as [(self' & E & Hc & Hd & Hi & _ & _ & Hu)|(e & E & Hcf)];
    rewrite E; simpl; [|exact Hcf].
  specialize (IH self').
  destruct (feed self' ks) as [self''|[]]; try exact IH.
  - destruct IH as (Hc' & Hd' & Hi' & Hu').
    split; [intros _; exact (Hc' Hc)|].
    split; [congruence|]. split; [congruence|].
    intros U. exact (Hu' (Hu U)).
  - congruence.
Qed.

Lemma string_length_append (a b : string) :
  String.length (a ++ b) = (String.length a + String.length b)%nat.
Proof. induction a as [|c a IH]; simpl; [reflexivity|now rewrite IH]. Qed.

Lemma lower_length (s : string) : String.length (lower s) = String.length s.
Proof. induction s as [|c s IH]; simpl; [reflexivity|now rewrite IH]. Qed.

Lemma drop_last_length (s : string) :
  String.length (drop_last s) = Nat.pred (String.length s).
Proof.
  induction s as [|c s IH]; [reflexivity|].
  destruct s as [|d s]; [reflexivity|].
  change (drop_last (String c (String d s))) with (String c (drop_last (String d s))).
  simpl String.length in *. rewrite IH. reflexivity.
Qed.

Lemma length_zero_empty (s : string) : String.length s = 0%nat -> s = "".
Proof. destruct s; simpl; [reflexivity|discriminate]. Qed.

Lemma is_char_facts (key : string) :
  is_char key = true ->
  is_edit key = true /\ is_down key = false /\ is_up key = false /\
  is_backspace key = false.
Proof.
  unfold is_char. intros H.
  apply andb_true_iff in H as [H Hb]. apply andb_true_iff in H as [H Hu].
  apply andb_true_iff in H as [H Hd].
  apply negb_true_iff in Hb, Hu, Hd. auto.
Qed.

Lemma Forall_is_char_edit (chars : list string) :
  Forall (fun key => is_char key = true) chars ->
  Forall (fun key => is_edit key = true) chars.
Proof.
  apply Forall_impl. intros k H. now apply is_char_facts in H.
Qed.

Lemma DEL_facts :
  is_edit DEL = true /\ is_down DEL = false /\ is_up DEL = false /\
  is_backspace DEL = true.
Proof.
  unfold is_edit, passes, _translate_ch_to_exc. destruct WIN; repeat split.
Qed.

Lemma Forall_DEL_edit (n : nat) : Forall (fun key => is_edit key = true) (repeat DEL n).
Proof.
  induction n; simpl; constructor; [apply DEL_facts|assumption].
Qed.

(** Typed characters lengthen the filter by their number. *)
Lemma feed_chars_length (chars : list string) (self self' : Menu) :
  Forall (fun key => is_char key = true) chars ->
  feed self chars = Ok self' ->
  String.length (filter self') = (String.length (filter self) + typed_length chars)%nat.
Proof.
  intros Hks. revert self.
  induction Hks as [|k ks Hk Hks IH]; intros self; simpl.
  - intros H. inversion H; subst. unfold typed_length. simpl. lia.
  - destruct (is_char_facts k Hk) as (He & Hd & Hu & Hb).
    destruct (on_key_edit self k He)
      as [(s1 & E & _ & _ & _ & _ & Hf & _)|(e & E & _)];
      rewrite E; simpl; [|discriminate].
    intros H. rewrite (IH s1 H), Hf.
    unfold edited_filter. rewrite Hd, Hu, Hb. simpl.
    rewrite string_length_append, lower_length.
    unfold typed_length. simpl. lia.
Qed.

(** Each Backspace shortens the filter by one character, down to none. *)
Lemma feed_backspaces_length (n : nat) (self self' : Menu) :
  feed self (repeat DEL n) = Ok self' ->
  String.length (filter self') = (String.length (filter self) - n)%nat.
Proof.
  revert self. induction n as [|n IH]; intros self; simpl.
  - intros H. inversion H; subst. lia.
  - destruct DEL_facts as (He & Hd & Hu & Hb).
    destruct (on_key_edit self DEL He)
      as [(s1 & E & _ & _ & _ & _ & Hf & _)|(e & E & _)];
      rewrite E; simpl; [|discriminate].
    intros H. rewrite (IH s1 H), Hf.
    unfold edited_filter. rewrite Hd, Hu, Hb. simpl.
    rewrite drop_last_length. lia.
Qed.

Lemma run_unfold (self : Menu) (reads : list tty) (mode : tmode) :
  run self reads mode =
    (match fst (while_not_done (set_selected_index (set_done self false) 0) reads mode) with
     | Raise KeyboardInterrupt | Raise EOFError | Raise QuitException =>
         Ok (Returned None)
     | _ => fst (while_not_done (set_selected_index (set_done self false) 0) reads mode)
     end,
     snd (while_not_done (set_selected_index (set_done self false) 0) reads mode)).
Proof.
  unfold run. cbv zeta.
  destruct (while_not_done _ reads mode) as [r m]. reflexivity.
Qed.

Lemma append_neq (s k : string) : truthy k = true -> s ++ k <> s.
Proof.
  intros Hk E. apply (f_equal String.length) in E.
  rewrite string_length_append in E. destruct k; [discriminate|]. simpl in E. lia.
Qed.

(** Enter on a view with at least one item ends the session with the key
    under the cursor. *)
Lemma confirm_selects_cursor_key (self : Menu) (t : tty) (key : string) (mode : tmode) :
  fst (getchar WIN t mode) = Ok key ->
  is_ok key = true ->
  cursor_ok self ->
  _items_filtered self <> [] ->
  exists k,
    nth_error (keys (_items_filtered self)) (Z.to_nat (_selected_index self)) = Some k /\
    check_key self t mode = (Ok (set_value (set_done self true) (Some k)), mode).
Proof.
  intros Hg Hok Hc Hne.
  destruct (is_ok_facts key Hok) as (_ & Hesc & _).
  rewrite check_key_on_key, Hg, getchar_mode. simpl.
  rewrite on_key_unfold, Hesc, Hok.
  destruct Hc as [_ Hc]. cbv zeta in Hc.
  assert (Hn : 0 < Z.of_nat (List.length (_items_filtered self)))
    by (destruct (_items_filtered self); [contradiction|simpl; lia]).
  specialize (Hc Hn).
  assert (Hnon : nonempty (keys (_items_filtered self)) = true)
    by (destruct (_items_filtered self); [contradiction|reflexivity]).
  rewrite Hnon. simpl andb. cbv iota.
  unfold tuple_get. rewrite keys_length.
  destruct (_selected_index self <? 0) eqn:E1; [lia|].
  destruct ((0 <=? _selected_index self) &&
            (_selected_index self <? Z.of_nat (List.length (_items_filtered self))))
    eqn:E2; [|apply andb_false_iff in E2 as [E2|E2]; lia].
  destruct (nth_error (keys (_items_filtered self)) (Z.to_nat (_selected_index self)))
    as [k|] eqn:En.
  - exists k. split; [reflexivity|]. simpl.
    rewrite clamp_in_range; [reflexivity|exact Hc].
  - apply nth_error_None in En. rewrite keys_length in En. lia.
Qed.

(** ** Claims about the state machine *)

(** C1, where the code departs from it: Enter on an empty view is not a
    no-op. The key falls through to the branch for typed characters, so
    [check_key] appends it to the filter, which is then no longer the
    filter it was, and recomputes the view. *)
Theorem confirm_on_empty_view_edits_filter (self : Menu) (t : tty)
    (key : string) (mode : tmode) :
  fst (getchar WIN t mode) = Ok key ->
  is_ok key = true ->
  _items_filtered self = [] ->
  colon_free (_items self) = true ->
  exists self',
    check_key self t mode = (Ok self', mode) /\
    filter self' = filter self ++ key /\
    filter self' <> filter self /\
    _done self' = _done self.
Proof.
  intros Hg Hok Hempty Hcf.
  destruct (is_ok_facts key Hok) as (_ & Hesc & Hd & Hu & Hb & Hl & Ht).
  rewrite check_key_on_key, Hg, getchar_mode. simpl.
  rewrite on_key_unfold, Hesc, Hok, Hd, Hu, Hb, Hempty, Hl. simpl.
  destruct (search_cases (set_selected_index (set_filter self (filter self ++ key)) 0))
    as [(d & E & _)|(k & _ & Hk)]; [|simpl in Hk; congruence].
  rewrite E. simpl. eexists. split; [reflexivity|].
  destruct (clamp_fields 0
    (set_items_filtered (set_selected_index (set_filter self (filter self ++ key)) 0) d))
    as (_ & _ & E3 & _ & E5 & _).
  rewrite E3, E5. simpl. repeat split. now apply append_neq.
Qed.

Lemma while_not_done_app (pre rest : list tty) (self self' : Menu)
    (mode mode' : tmode) :
  while_not_done self pre mode = (Ok (Waiting self'), mode') ->
  while_not_done self (pre ++ rest)%list mode = while_not_done self' rest mode'.
Proof.
  revert self mode.
  induction pre as [|t pre IH]; intros self mode; simpl.
  - destruct (_done self); intros H; inversion H; subst; reflexivity.
  - destruct (_done self); [discriminate|].
    destruct (check_key self t mode) as [[s1|e] m1]; [apply IH|discriminate].
Qed.

(** A session that waits for a key is not done. *)
Lemma while_not_done_waiting (reads : list tty) (self self' : Menu)
    (mode mode' : tmode) :
  while_not_done self reads mode = (Ok (Waiting self'), mode') ->
  _done self' = false.
Proof.
  revert self mode.
  induction reads as [|t reads IH]; intros self mode; simpl.
  - destruct (_done self) eqn:D; intros H; inversion H; subst; exact D.
  - destruct (_done self); [discriminate|].
    destruct (check_key self t mode) as [[s1|e] m1]; [apply IH|discriminate].
Qed.

Lemma run_waiting (start self : Menu) (reads : list tty) (mode mode' : tmode) :
  run start reads mode = (Ok (Waiting self), mode') ->
  while_not_done (set_selected_index (set_done start false) 0) reads mode
    = (Ok (Waiting self), mode').
Proof.
  rewrite run_unfold.
  destruct (while_not_done _ reads mode) as [[[v|s]|[]] m]; simpl;
    intros H; inversion H; subst; reflexivity.
Qed.

(** C5: in every state, Escape with a non-empty filter clears the filter,
    puts the cursor at 0, makes the view the whole item set and leaves the
    menu active; Escape with an empty filter raises [QuitException], and a
    session that has reached this state returns [None] from [run]. *)
Theorem cancel_clears_or_quits (self : Menu) (t : tty) (key : string)
    (reads : list tty) (mode : tmode) :
  fst (getchar WIN t mode) = Ok key ->
  is_esc key = true ->
  (filter self <> "" ->
   exists self',
     check_key self t mode = (Ok self', mode) /\
     filter self' = "" /\ _selected_index self' = 0 /\
     _items_filtered self' = _items self /\ _items self' = _items self /\
     _done self' = _done self /\ value self' = value self) /\
  (filter self = "" ->
   check_key self t mode = (Raise QuitException, mode) /\
   forall (start : Menu) (pre : list tty) (mode0 : tmode),
     run start pre mode0 = (Ok (Waiting self), mode) ->
     run start (pre ++ t :: reads)%list mode0 = (Ok (Returned None), mode)).
Proof.
  intros Hg Hesc. split; intros Hf.
  - rewrite check_key_on_key, Hg, getchar_mode. simpl.
    rewrite on_key_unfold, Hesc.
    destruct (truthy (filter self)) eqn:T; [|now apply truthy_false in T].
    rewrite search_empty_filter by reflexivity.
    eexists. split; [reflexivity|]. simpl. repeat split.
  - assert (Hq : check_key self t mode = (Raise QuitException, mode)).
    { rewrite check_key_on_key, Hg, getchar_mode. simpl.
      rewrite on_key_unfold, Hesc, Hf. reflexivity. }
    split; [exact Hq|].
    intros start pre mode0 Hrun. apply run_waiting in Hrun.
    pose proof (while_not_done_waiting _ _ _ _ _ Hrun) as Hd.
    rewrite run_unfold, (while_not_done_app pre (t :: reads) _ _ _ _ Hrun).
    simpl. rewrite Hd, Hq. reflexivity.
Qed.

(** Whatever the terminal delivers, a session that is waiting for a key
    has its cursor inside the view. *)
Lemma waiting_cursor_ok (reads : list tty) (self self' : Menu) (mode mode' : tmode) :
  cursor_ok self ->
  while_not_done self reads mode = (Ok (Waiting self'), mode') ->
  cursor_ok self'.
Proof.
  revert self mode.
  induction reads as [|t reads IH]; intros self mode Hc; simpl.
  - destruct (_done self); intros H; inversion H; subst; exact Hc.
  - destruct (_done self); [discriminate|].
    rewrite check_key_on_key.
    destruct (fst (getchar WIN t mode)) as [key|e]; simpl; [|discriminate].
    destruct (on_key self key) as [s1|e] eqn:E; [|discriminate].
    apply IH. eapply on_key_cursor_ok; eassumption.
Qed.

(** C4: after any sequence of Up, Down, Backspace and typed-character keys
    the session is waiting for the next key with the cursor inside the
    view, at 0 when the view is empty. The only other outcome is the
    [KeyError] that [search] raises for an item key with a colon. *)
Theorem cursor_stays_in_view (self : Menu) (ks : list string) (mode : tmode) :
  Forall (fun key => is_edit key = true) ks ->
  match fst (run self (map typed ks) mode) with
  | Ok (Waiting self') =>
      (_items_filtered self' = [] -> _selected_index self' = 0) /\
      (_items_filtered self' <> [] ->
       0 <= _selected_index self' < Z.of_nat (List.length (_items_filtered self')))
  | Raise (KeyError _) => colon_free (_items self) = false
  | _ => False
  end.
Proof.
  intros Hks. rewrite run_unfold.
  rewrite while_not_done_feed by (reflexivity || exact Hks). simpl fst.
  pose proof (feed_edit ks (set_selected_index (set_done self false) 0) Hks) as H.
  destruct (feed _ ks) as [self'|[]]; simpl; try exact H.
  destruct H as (Hc & _).
  assert (Hc' : cursor_ok self') by (apply Hc, cursor_ok_zero; reflexivity).
  destruct Hc' as [H0 H1]. cbv zeta in H0, H1. split.
  - intros E. apply H0. now rewrite E.
  - intros E. apply H1. destruct (_items_filtered self'); [contradiction|simpl; lia].
Qed.

(** C7: typing characters and then pressing Backspace at least as often as
    characters were typed leaves the session waiting with an empty filter
    and with the whole item set, in its order, as the view. The only other
    outcome is the [KeyError] that [search] raises for an item key with a
    colon. *)
Theorem filter_roundtrip (text : string) (items : dict) (f : searcher)
    (g : string -> string -> Z) (chars : list string) (n : nat) (mode : tmode) :
  Forall (fun key => is_char key = true) chars ->
  (typed_length chars <= n)%nat ->
  match fst (run (__init__ text items f g)
                 (map typed chars ++ repeat (typed DEL) n) mode) with
  | Ok (Waiting self') => filter self' = "" /\ _items_filtered self' = items
  | Raise (KeyError _) => colon_free items = false
  | _ => False
  end.
Proof.
  intros Hchars Hn. rewrite run_unfold.
  change (set_selected_index (set_done (__init__ text items f g) false) 0)
    with (__init__ text items f g).
  rewrite <- map_repeat, <- map_app.
  assert (Hks : Forall (fun key => is_edit key = true) (chars ++ repeat DEL n)%list)
    by (apply Forall_app; split; [now apply Forall_is_char_edit|apply Forall_DEL_edit]).
  rewrite while_not_done_feed by (reflexivity || exact Hks). simpl fst.
  pose proof (feed_edit _ (__init__ text items f g) Hks) as H.
  rewrite feed_app in *.
  destruct (feed (__init__ text items f g) chars) as [s1|e1] eqn:E1; simpl in *;
    [|destruct e1; exact H].
  destruct (feed s1 (repeat DEL n)) as [s2|e2] eqn:E2; simpl;
    [|destruct e2; exact H].
  destruct H as (_ & _ & Hi & Hu).
  pose proof (feed_chars_length chars _ _ Hchars E1) as L1.
  pose proof (feed_backspaces_length n _ _ E2) as L2.
  simpl in L1.
  assert (Hf : filter s2 = "") by (apply length_zero_empty; lia).
  split; [exact Hf|].
  unfold unfiltered in Hu. simpl in Hu, Hi. rewrite Hi in Hu. auto.
Qed.

(** ** The constructor's [searcher] and [scorer] *)

Lemma search_callables (self : Menu) (f : searcher) (g : string -> string -> Z) :
  search (with_callables self f g) =
    (self' <- search self ;; Ok (with_callables self' f g)).
Proof.
  unfold search. simpl.
  destruct (truthy (filter self)); [|reflexivity].
  now destruct (search_loop _ _ _).
Qed.

Lemma clamp_callables (n : Z) (self : Menu) (f : searcher) (g : string -> string -> Z) :
  clamp n (with_callables self f g) = with_callables (clamp n self) f g.
Proof.
  unfold clamp. simpl.
  destruct (n <=? _selected_index self); simpl;
    match goal with |- context [if ?b then _ else _] => destruct b end;
    reflexivity.
Qed.

Lemma on_key_callables (self : Menu) (key : string) (f : searcher)
    (g : string -> string -> Z) :
  on_key (with_callables self f g) key =
    (self' <- on_key self key ;; Ok (with_callables self' f g)).
Proof.
  rewrite !on_key_unfold. simpl.
  assert (Hs : forall s n,
    (self' <- search (with_callables s f g) ;; Ok (clamp n self')) =
    (self' <- (self0 <- search s ;; Ok (clamp n self0)) ;; Ok (with_callables self' f g))).
  { intros s n. rewrite search_callables.
    destruct (search s); simpl; [now rewrite clamp_callables|reflexivity]. }
  destruct (is_esc key).
  { destruct (truthy (filter self)); [|reflexivity].
    apply (search_callables (set_selected_index (set_filter self "") 0)). }
  destruct (is_ok key && _).
  { destruct (tuple_get _ _); simpl; [|reflexivity].
    now rewrite <- clamp_callables. }
  destruct (is_down key); [simpl; now rewrite <- clamp_callables|].
  destruct (is_up key); [simpl; now rewrite <- clamp_callables|].
  destruct (is_backspace key).
  - exact (Hs (set_selected_index (set_filter self (drop_last (filter self))) 0) _).
  - exact (Hs (set_selected_index (set_filter self (filter self ++ lower key)) 0) _).
Qed.

Lemma while_not_done_callables (reads : list tty) (self : Menu) (mode : tmode)
    (f1 f2 : searcher) (g1 g2 : string -> string -> Z) :
  same_session (fst (while_not_done (with_callables self f1 g1) reads mode))
               (fst (while_not_done (with_callables self f2 g2) reads mode)).
Proof.
  revert self mode.
  induction reads as [|t reads IH]; intros self mode; simpl.
  - destruct (_done self); simpl; repeat split.
  - destruct (_done self); [simpl; reflexivity|].
    rewrite !check_key_on_key.
    destruct (fst (getchar WIN t mode)) as [key|e]; simpl; [|reflexivity].
    rewrite !on_key_callables.
    destruct (on_key self key) as [self'|e]; simpl; [apply IH|reflexivity].
Qed.

(** C9: two menus over the same items that differ only in the [searcher]
    and [scorer] given to the constructor go through the same views,
    filters, cursors and results on every sequence of reads: [search] calls
    [search_for_matches] with [fuzz_scorer] and reads neither field. *)
Theorem filtering_ignores_searcher_and_scorer (text : string) (items : dict)
    (f1 f2 : searcher) (g1 g2 : string -> string -> Z)
    (reads : list tty) (mode : tmode) :
  same_session (fst (run (__init__ text items f1 g1) reads mode))
               (fst (run (__init__ text items f2 g2) reads mode)).
Proof.
  rewrite !run_unfold. simpl fst.
  pose proof (while_not_done_callables reads (__init__ text items f1 g1) mode
                f1 f2 g1 g2) as H.
  change (with_callables (__init__ text items f1 g1) f1 g1)
    with (set_selected_index (set_done (__init__ text items f1 g1) false) 0) in H.
  change (with_callables (__init__ text items f1 g1) f2 g2)
    with (set_selected_index (set_done (__init__ text items f2 g2) false) 0) in H.
  destruct (fst (while_not_done
                   (set_selected_index (set_done (__init__ text items f1 g1) false) 0)
                   reads mode)) as [[v1|s1]|e1];
  destruct (fst (while_not_done
                   (set_selected_index (set_done (__init__ text items f2 g2) false) 0)
                   reads mode)) as [[v2|s2]|e2];
    simpl in H |- *; try contradiction; try exact H.
  subst e2. destruct e1; simpl; reflexivity.
Qed.

(** ** Item keys with a colon *)

Lemma partition_app_before (c : ascii) (k rest : string) :
  contains_char c k = true ->
  fst (fst (partition (k ++ rest) c)) = fst (fst (partition k c)).
Proof.
  induction k as [|a k IH]; [discriminate|].
  unfold contains_char. simpl.
  destruct (Ascii.eqb a c); [reflexivity|].
  intros H.
  assert (Hk : contains_char c k = true).
  { unfold contains_char. destruct (partition k c) as [[b fd] af]. exact H. }
  specialize (IH Hk).
  destruct (partition (k ++ rest) c) as [[b1 f1] a1].
  destruct (partition k c) as [[b2 f2] a2]. simpl in *. now rewrite IH.
Qed.

Lemma partition_before_shorter (c : ascii) (k : string) :
  contains_char c k = true ->
  (String.length (fst (fst (partition k c))) < String.length k)%nat.
Proof.
  induction k as [|a k IH]; [discriminate|].
  unfold contains_char. simpl.
  destruct (Ascii.eqb a c); [simpl; lia|].
  intros H.
  assert (Hk : contains_char c k = true).
  { unfold contains_char. destruct (partition k c) as [[b fd] af]. exact H. }
  specialize (IH Hk).
  destruct (partition k c) as [[b2 f2] a2]. simpl in *. lia.
Qed.

Lemma truthy_lower (s : string) : truthy (lower s) = truthy s.
Proof. now destruct s. Qed.

(** C10: for an item set whose only key contains a colon, as soon as a
    typed character makes the search match that item's candidate string,
    [search] cuts the candidate at its first colon, looks up the shortened
    key, which is not a key of the item set, and raises [KeyError]; [run]
    does not catch it. *)
Theorem colon_key_raises_KeyError (text key desc : string) (f : searcher)
    (g : string -> string -> Z) (ch : string) (sc : Z)
    (reads : list tty) (mode : tmode) :
  is_char ch = true ->
  truthy ch = true ->
  contains_char ":" key = true ->
  search_for_matches (lower ch) [key ++ ": " ++ desc]
                     default_limit default_threshold fuzz_scorer
    = [(key ++ ": " ++ desc, sc)] ->
  fst (fst (partition key ":")) <> key /\
  search (set_filter (__init__ text [(key, desc)] f g) (lower ch))
    = Raise (KeyError (fst (fst (partition key ":")))) /\
  run (__init__ text [(key, desc)] f g) (typed ch :: reads) mode
    = (Raise (KeyError (fst (fst (partition key ":")))), mode).
Proof.
  intros Hch Ht Hcolon Hmatch.
  destruct (is_char_facts ch Hch) as (He & Hd & Hu & Hb).
  destruct (is_edit_facts ch He) as (Hp & Hesc & Hok).
  pose proof (partition_before_shorter ":" key Hcolon) as Hshort.
  pose proof (partition_app_before ":" key (": " ++ desc) Hcolon) as Hcut.
  set (k := fst (fst (partition key ":"))) in *.
  assert (Hne : k <> key) by (intros E; rewrite E in Hshort; lia).
  assert (Hsearch : forall s, filter s = lower ch -> _items s = [(key, desc)] ->
            search s = Raise (KeyError k)).
  { intros s Hf Hi. unfold search. rewrite Hf, truthy_lower, Ht, Hi.
    change (map (fun '(key0, desc0) => key0 ++ ": " ++ desc0) [(key, desc)])
      with [key ++ ": " ++ desc].
    rewrite Hmatch. simpl in Hcut |- *.
    destruct (partition (key ++ String ":" (String " " desc)) ":") as [[b fd] af].
    simpl in Hcut. subst b. simpl.
    destruct (String.eqb key k) eqn:E; [apply String.eqb_eq in E; congruence|].
    reflexivity. }
  split; [exact Hne|]. split; [now apply Hsearch|].
  rewrite run_unfold. simpl.
  rewrite (check_key_typed _ ch mode Hp), on_key_unfold, Hesc, Hok, Hd, Hu, Hb.
  simpl. rewrite Hsearch by reflexivity. reflexivity.
Qed.

(** ** Failure to enter raw mode *)

(** Whatever keeps a Unix terminal from entering raw mode, [getchar] raises
    and [run] hands the exception on: [OSError] when there is no terminal
    to open, [RuntimeError] when a [termios] error is swallowed before the
    context manager has yielded. The terminal mode is the one found. *)
Lemma acquisition_failure_raises (self : Menu) (t : tty) (reads : list tty)
    (mode : tmode) :
  WIN = false ->
  acquisition_fails t = true ->
  exists e,
    (e = OSError \/ e = RuntimeError) /\
    getchar WIN t mode = (Raise e, mode) /\
    run self (t :: reads) mode = (Raise e, mode).
Proof.
  intros HW Hfail.
  assert (Hg : exists e, (e = OSError \/ e = RuntimeError) /\
                         getchar WIN t mode = (Raise e, mode)).
  { unfold getchar, raw_terminal. rewrite HW.
    unfold acquisition_fails in Hfail.
    destruct (negb (stdin_isatty t) && negb (dev_tty_opens t)); [eauto|].
    destruct (negb (tcgetattr_ok t)); [eauto|].
    destruct (negb (setraw_ok t)); [eauto|discriminate]. }
  destruct Hg as (e & He & Hg). exists e. split; [exact He|]. split; [exact Hg|].
  rewrite run_unfold. simpl. rewrite check_key_on_key, Hg. simpl.
  destruct He as [-> | ->]; reflexivity.
Qed.

(** C8, as amended: on a Unix system without a terminal to read from
    (standard input is not a terminal and [/dev/tty] cannot be opened) the
    key read raises [OSError]; [run] catches [KeyboardInterrupt],
    [EOFError] and [QuitException] only, so the session ends with the
    [OSError] reaching the caller instead of returning [None]. The terminal
    mode is the one found. *)
Theorem no_terminal_surfaces_OSError (self : Menu) (t : tty) (reads : list tty)
    (mode : tmode) :
  WIN = false ->
  stdin_isatty t = false ->
  dev_tty_opens t = false ->
  getchar WIN t mode = (Raise OSError, mode) /\
  check_key self t mode = (Raise OSError, mode) /\
  run self (t :: reads) mode = (Raise OSError, mode).
Proof.
  intros HW Hin Hdev.
  assert (Hg : getchar WIN t mode = (Raise OSError, mode)).
  { unfold getchar, raw_terminal. rewrite HW, Hin, Hdev. reflexivity. }
  assert (Hc : forall s, check_key s t mode = (Raise OSError, mode)).
  { intros s. rewrite check_key_on_key, Hg. reflexivity. }
  split; [exact Hg|]. split; [apply Hc|].
  rewrite run_unfold. simpl. rewrite Hc. reflexivity.
Qed.


(** ** Further properties: the key source *)

(** The five key classes of [keys.py] exclude one another, so the order of
    the tests in [check_key] decides nothing. *)
Theorem key_classes_exclusive (code : string) :
  (is_up code = true ->
   is_down code = false /\ is_ok code = false /\ is_esc code = false /\
   is_backspace code = false) /\
  (is_down code = true ->
   is_ok code = false /\ is_esc code = false /\ is_backspace code = false) /\
  (is_ok code = true -> is_esc code = false /\ is_backspace code = false) /\
  (is_esc code = true -> is_backspace code = false).
Proof using.
  clear.
  unfold is_up, is_down, is_ok, is_esc, is_backspace, member,
         UP_ARROW, DOWN_ARROW, OK_BUTTON, ESC_BUTTON, BACKSPACE.
  simpl.
  repeat match goal with
         | |- context [String.eqb code ?s] =>
             destruct (String.eqb_spec code s);
             [subst code; simpl; intuition discriminate|]
         end.
  simpl. intuition discriminate.
Qed.




Lemma while_not_done_final (pre more : list tty) (self : Menu) (mode : tmode) :
  (forall s, fst (while_not_done self pre mode) <> Ok (Waiting s)) ->
  while_not_done self (pre ++ more)%list mode = while_not_done self pre mode.
Proof.
  revert self mode.
  induction pre as [|t pre IH]; intros self mode H; simpl in *.
  - destruct (_done self) eqn:D; [destruct more; simpl; now rewrite D|].
    exfalso. now apply (H self).
  - destruct (_done self); [reflexivity|].
    destruct (check_key self t mode) as [[s1|e] m1]; [|reflexivity].
    now apply IH.
Qed.

(** Once [run] has returned or raised, later input changes nothing: the
    reads that follow are not consumed. *)
Theorem outcome_is_final (start : Menu) (pre more : list tty) (mode : tmode) :
  (forall s, fst (run start pre mode) <> Ok (Waiting s)) ->
  run start (pre ++ more)%list mode = run start pre mode.
Proof.
  intros H. rewrite !run_unfold.
  rewrite while_not_done_final; [reflexivity|].
  intros s E. apply (H s). rewrite run_unfold. simpl. now rewrite E.
Qed.

Lemma run_after_waiting (start self : Menu) (pre rest : list tty)
    (mode0 mode : tmode) :
  run start pre mode0 = (Ok (Waiting self), mode) ->
  run start (pre ++ rest)%list mode0 =
    (match fst (while_not_done self rest mode) with
     | Raise KeyboardInterrupt | Raise EOFError | Raise QuitException =>
         Ok (Returned None)
     | _ => fst (while_not_done self rest mode)
     end, snd (while_not_done self rest mode)).
Proof.
  intros H. apply run_waiting in H.
  rewrite run_unfold, (while_not_done_app pre rest _ _ _ _ H). reflexivity.
Qed.

Lemma getchar_typed_raises (ch : string) (mode : tmode) (e : exn) :
  _translate_ch_to_exc WIN ch = Raise e ->
  getchar WIN (typed ch) mode = (Raise e, mode).
Proof. intros H. rewrite getchar_typed, H. reflexivity. Qed.

(** Ctrl-C ends the session at any point, on either platform: [getchar]
    raises [KeyboardInterrupt], [run] returns [None], and the reads that
    follow are not consumed. *)
Theorem interrupt_returns_None (start self : Menu) (pre reads : list tty)
    (mode0 mode : tmode) :
  run start pre mode0 = (Ok (Waiting self), mode) ->
  run start (pre ++ typed CTRL_C :: reads)%list mode0 = (Ok (Returned None), mode).
Proof.
  intros H. rewrite (run_after_waiting _ _ _ _ _ _ H). simpl.
  rewrite (while_not_done_waiting _ _ _ _ _ (run_waiting _ _ _ _ _ H)).
  rewrite check_key_on_key.
  rewrite (getchar_typed_raises CTRL_C mode KeyboardInterrupt) by reflexivity.
  reflexivity.
Qed.

(** The end-of-input key is Ctrl-D on Unix and Ctrl-Z on Windows: it ends
    the session with [None] at any point, while the other platform's key
    is handed on by [getchar] like any key. *)
Theorem end_of_input_returns_None (start self : Menu) (pre reads : list tty)
    (mode0 mode : tmode) :
  run start pre mode0 = (Ok (Waiting self), mode) ->
  run start (pre ++ typed end_of_input :: reads)%list mode0
    = (Ok (Returned None), mode) /\
  getchar WIN (typed (if WIN then CTRL_D else CTRL_Z)) mode
    = (Ok (if WIN then CTRL_D else CTRL_Z), mode).
Proof.
  intros H. split.
  - rewrite (run_after_waiting _ _ _ _ _ _ H). simpl.
    rewrite (while_not_done_waiting _ _ _ _ _ (run_waiting _ _ _ _ _ H)).
    rewrite check_key_on_key.
    rewrite (getchar_typed_raises end_of_input mode EOFError);
      [reflexivity|unfold end_of_input; now destruct WIN].
  - rewrite getchar_typed. now destruct WIN.
Qed.

Lemma special_lead_cases (ch : string) :
  special_lead ch = true -> ch = String "000" "" \/ ch = String "224" "".
Proof.
  unfold special_lead, member. simpl. intros H.
  repeat (apply orb_true_iff in H as [H|H]);
    try (apply String.eqb_eq in H; auto); discriminate.
Qed.

(** On Windows a special key (an arrow key, say) arrives as a lead
    character and a second character. [getchar] joins the two and never
    raises for them, and the joined key is none of Up, Down, Enter, Escape
    or Backspace: [check_key] treats it as typed text, which either
    lengthens the filter or, for an item key with a colon, ends in the
    [KeyError] of [search]. *)
Theorem windows_special_key_is_typed (self : Menu) (t : tty) (mode : tmode) :
  WIN = true ->
  special_lead (first t) = true ->
  getchar WIN t mode = (Ok (first t ++ second t), mode) /\
  is_up (first t ++ second t) = false /\
  is_down (first t ++ second t) = false /\
  is_ok (first t ++ second t) = false /\
  is_esc (first t ++ second t) = false /\
  is_backspace (first t ++ second t) = false /\
  match fst (check_key self t mode) with
  | Ok self' => filter self' = filter self ++ lower (first t ++ second t)
  | Raise (KeyError _) => colon_free (_items self) = false
  | Raise _ => False
  end.
Proof.
  intros HW Hlead.
  assert (Hpass : _translate_ch_to_exc WIN (first t ++ second t) = Ok tt).
  { unfold _translate_ch_to_exc. rewrite HW.
    destruct (special_lead_cases _ Hlead) as [-> | ->];
      destruct (second t) as [|c [|d s]]; reflexivity. }
  assert (Hcls : is_up (first t ++ second t) = false /\
                 is_down (first t ++ second t) = false /\
                 is_ok (first t ++ second t) = false /\
                 is_esc (first t ++ second t) = false /\
                 is_backspace (first t ++ second t) = false).
  { destruct (special_lead_cases _ Hlead) as [-> | ->]; repeat split. }
  assert (Hg : getchar WIN t mode = (Ok (first t ++ second t), mode)).
  { unfold getchar. rewrite HW. fold (special_lead (first t)). rewrite Hlead.
    rewrite HW in Hpass. rewrite Hpass. reflexivity. }
  destruct Hcls as (Hu & Hd & Hok & Hesc & Hb).
  repeat (split; [assumption|]).
  rewrite check_key_on_key, Hg. simpl.
  assert (He : is_edit (first t ++ second t) = true).
  { unfold is_edit, passes. now rewrite Hpass, Hesc, Hok. }
  destruct (on_key_edit self _ He)
    as [(self' & E & _ & _ & _ & _ & Hf & _)|(k & E & Hk)]; rewrite E.
  - rewrite Hf. unfold edited_filter. now rewrite Hd, Hu, Hb.
  - exact Hk.
Qed.


(** ** Further properties: the view that [search] builds *)

Lemma dict_get_Ok_In (items : dict) (k v : string) :
  dict_get items k = Ok v -> In (k, v) items.
Proof.
  induction items as [|[k0 v0] items IH]; simpl; [discriminate|].
  destruct (String.eqb_spec k0 k) as [->|_].
  - intros H. inversion H. now left.
  - intros H. right. auto.
Qed.

Lemma In_dict_set (d : dict) (k v : string) (x : string * string) :
  In x (dict_set d k v) -> x = (k, v) \/ In x d.
Proof.
  induction d as [|[k0 v0] d IH]; simpl.
  - intros [<-|[]]. now left.
  - destruct (String.eqb_spec k0 k) as [->|_]; simpl.
    + intros [<-|H]; auto.
    + intros [<-|H]; auto. destruct (IH H); auto.
Qed.

Lemma keys_dict_set (d : dict) (k v x : string) :
  In x (keys (dict_set d k v)) <-> x = k \/ In x (keys d).
Proof.
  unfold keys. induction d as [|[k0 v0] d IH]; simpl.
  - intuition.
  - destruct (String.eqb_spec k0 k) as [->|_]; simpl; intuition.
Qed.

Lemma NoDup_keys_dict_set (d : dict) (k v : string) :
  NoDup (keys d) -> NoDup (keys (dict_set d k v)).
Proof.
  unfold keys. induction d as [|[k0 v0] d IH]; simpl; intros H.
  - repeat constructor. auto.
  - inversion H as [|? ? Hn Hd]; subst.
    destruct (String.eqb_spec k0 k) as [->|Hne]; simpl.
    + now constructor.
    + constructor; [|auto].
      intros Hin. apply (keys_dict_set d k v k0) in Hin as [E|Hin]; auto.
Qed.

Lemma dict_set_length (d : dict) (k v : string) :
  (List.length (dict_set d k v) <= S (List.length d))%nat.
Proof.
  induction d as [|[k0 v0] d IH]; simpl; [lia|].
  destruct (String.eqb k0 k); simpl; lia.
Qed.

Lemma search_loop_view (items : dict) (results : list (string * Z))
    (filtered d : dict) :
  search_loop items results filtered = Ok d ->
  ((forall kd, In kd filtered -> In kd items) -> forall kd, In kd d -> In kd items) /\
  (NoDup (keys filtered) -> NoDup (keys d)) /\
  (List.length d <= List.length filtered + List.length results)%nat.
Proof.
  revert filtered.
  induction results as [|[option sc] results IH]; intros filtered H; simpl in H.
  - inversion H; subst. repeat split; auto. lia.
  - destruct (partition option ":") as [[key found] after].
    destruct (dict_get items key) as [desc|e] eqn:G; simpl in H; [|discriminate].
    destruct (IH _ H) as (I1 & I2 & I3).
    pose proof (dict_set_length filtered key desc).
    repeat split.
    + intros Hsub. apply I1. intros kd Hin.
      apply In_dict_set in Hin as [->|Hin]; [now apply dict_get_Ok_In|auto].
    + intros Hnd. now apply I2, NoDup_keys_dict_set.
    + simpl. lia.
Qed.

Lemma search_for_matches_length needle haystacks limit threshold scorer :
  (List.length (search_for_matches needle haystacks limit threshold scorer)
   <= Z.to_nat limit)%nat.
Proof.
  unfold search_for_matches. cbv zeta. rewrite threshold_filter_eq, extract_unfold.
  etransitivity; [apply filter_length_le|apply firstn_le_length].
Qed.

(** What [search] returns when it returns. *)
Lemma search_Ok (self self' : Menu) :
  search self = Ok self' ->
  exists d,
    self' = set_items_filtered self d /\
    (forall kd, In kd d -> In kd (_items self)) /\
    (truthy (filter self) = true ->
     (List.length d <= 10)%nat /\ NoDup (keys d)) /\
    (filter self = "" -> d = _items self).
Proof.
  unfold search. destruct (truthy (filter self)) eqn:T.
  - destruct (search_loop _ _ _) as [d|e] eqn:L; simpl; [|discriminate].
    intros H. inversion H; subst. exists d.
    destruct (search_loop_view _ _ _ _ L) as (I1 & I2 & I3).
    pose proof (search_for_matches_length (filter self)
                  (map (fun '(key, desc) => key ++ ": " ++ desc) (_items self))
                  default_limit default_threshold fuzz_scorer) as Hl.
    change (Z.to_nat default_limit) with 10%nat in Hl.
    change (List.length (@nil (string * string))) with 0%nat in I3.
    repeat split.
    + apply I1. intros kd [].
    + lia.
    + apply I2. constructor.
    + intros E. apply truthy_false in E. congruence.
  - intros H. inversion H; subst. exists (_items self).
    repeat split; auto; discriminate.
Qed.

(** With a filter typed, the view that [search] builds has at most 10
    entries, its keys are distinct, and each entry is an entry of the item
    set with the label the item set gives it. *)
Theorem filtered_view_is_bounded (self self' : Menu) :
  truthy (filter self) = true ->
  search self = Ok self' ->
  (List.length (_items_filtered self') <= 10)%nat /\
  NoDup (keys (_items_filtered self')) /\
  (forall kd, In kd (_items_filtered self') -> In kd (_items self)).
Proof.
  intros T H. destruct (search_Ok _ _ H) as (d & -> & Hsub & Hb & _).
  destruct (Hb T) as [Hl Hn]. simpl. auto.
Qed.

(** ** Further properties: sessions *)

Lemma tuple_get_In (t : list string) (i : Z) (v : string) :
  tuple_get t i = Ok v -> In v t.
Proof.
  unfold tuple_get. cbv zeta.
  destruct (_ && _); [|discriminate].
  destruct (nth_error t _) as [x|] eqn:E; [|discriminate].
  intros H. inversion H; subst. eapply nth_error_In; eassumption.
Qed.

(** A key either leaves [_done] and [value] alone or sets [_done] and
    records a key of the view; it never touches the item set. *)
Lemma on_key_Ok (self self' : Menu) (key : string) :
  on_key self key = Ok self' ->
  _items self' = _items self /\
  (view_of_items self -> view_of_items self') /\
  ((_done self' = _done self /\ value self' = value self) \/
   (_done self' = true /\
    exists k, value self' = Some k /\ In k (keys (_items_filtered self)))).
Proof.
  rewrite on_key_unfold.
  set (n := Z.of_nat (List.length (keys (_items_filtered self)))).
  assert (Hs : forall s s', search s = Ok s' ->
            _items s' = _items s /\ view_of_items s' /\
            _done s' = _done s /\ value s' = value s).
  { intros s s' H. destruct (search_Ok _ _ H) as (d & -> & Hsub & _).
    repeat split. exact Hsub. }
  assert (Hc : forall s,
            _items (clamp n s) = _items s /\
            (view_of_items s -> view_of_items (clamp n s)) /\
            _done (clamp n s) = _done s /\ value (clamp n s) = value s).
  { intros s. destruct (clamp_fields n s) as (E1 & E2 & E3 & E4 & _).
    unfold view_of_items. rewrite E1, E2, E3, E4. auto. }
  destruct (is_esc key).
  { destruct (truthy (filter self)); [|discriminate].
    intros H. apply Hs in H as (E1 & E2 & E3 & E4). simpl in *. auto. }
  assert (Hsc : forall s,
            _items s = _items self -> _done s = _done self -> value s = value self ->
            (s1 <- search s ;; Ok (clamp n s1)) = Ok self' ->
            _items self' = _items self /\
            (view_of_items self -> view_of_items self') /\
            ((_done self' = _done self /\ value self' = value self) \/
             (_done self' = true /\
              exists k, value self' = Some k /\ In k (keys (_items_filtered self))))).
  { intros s Ei Ed Ev H.
    destruct (search s) as [s1|e] eqn:E; simpl in H; inversion H; subst.
    apply Hs in E as (E1 & E2 & E3 & E4).
    destruct (Hc s1) as (C1 & C2 & C3 & C4).
    repeat split; try congruence; auto. left. split; congruence. }
  destruct (is_ok key && _).
  { destruct (tuple_get _ _) as [v|e] eqn:G; simpl; intros H; inversion H; subst.
    destruct (Hc (set_value (set_done self true) (Some v))) as (C1 & C2 & C3 & C4).
    split; [exact C1|]. split; [intros V; apply C2; exact V|].
    right. rewrite C3, C4. split; [reflexivity|].
    exists v. split; [reflexivity|]. eapply tuple_get_In; eassumption. }
  destruct (is_down key).
  { simpl. intros H; inversion H; subst.
    destruct (Hc (set_selected_index self (_selected_index self + 1)))
      as (C1 & C2 & C3 & C4).
    split; [exact C1|]. split; [intros V; apply C2; exact V|]. left. auto. }
  destruct (is_up key).
  { simpl. intros H; inversion H; subst.
    destruct (Hc (set_selected_index self (_selected_index self - 1)))
      as (C1 & C2 & C3 & C4).
    split; [exact C1|]. split; [intros V; apply C2; exact V|]. left. auto. }
  destruct (is_backspace key); apply Hsc; reflexivity.
Qed.

Lemma In_keys_view (self : Menu) (k : string) :
  view_of_items self -> In k (keys (_items_filtered self)) -> In k (keys (_items self)).
Proof.
  unfold keys. intros V H. apply in_map_iff in H as ([k0 v] & <- & H).
  apply in_map_iff. exists (k0, v). split; [reflexivity|now apply V].
Qed.

(** From an active state without a result: while the loop waits no result
    is recorded and the item set is the one given; what it returns is a key
    of the item set. *)
Lemma while_not_done_from_active (reads : list tty) (self : Menu)
    (mode m : tmode) (r : session) :
  _done self = false -> value self = None -> view_of_items self ->
  while_not_done self reads mode = (Ok r, m) ->
  match r with
  | Waiting self' =>
      value self' = None /\ _done self' = false /\ _items self' = _items self
  | Returned v => exists k, v = Some k /\ In k (keys (_items self))
  end.
Proof.
  revert self mode.
  induction reads as [|t reads IH]; intros self mode Hd Hv V; simpl; rewrite Hd.
  - intros H. inversion H; subst. auto.
  - rewrite check_key_on_key.
    destruct (fst (getchar WIN t mode)) as [key|e]; simpl; [|discriminate].
    destruct (on_key self key) as [s1|e] eqn:E; [|discriminate].
    destruct (on_key_Ok _ _ _ E) as (Ei & Vs & [[D1 V1]|(D1 & k & V1 & Hk)]).
    + intros H. apply IH in H; try congruence; [|auto].
      destruct r as [v|s']; [now rewrite <- Ei|].
      destruct H as (? & ? & ?). repeat split; congruence.
    + destruct reads; simpl; rewrite D1; intros H; inversion H; subst;
        exists k; (split; [exact V1|now apply In_keys_view]).
Qed.

Lemma fresh_view_of_items (text : string) (items : dict) (f : searcher)
    (g : string -> string -> Z) :
  view_of_items (__init__ text items f g).
Proof. intros kd H. exact H. Qed.

(** While a session started by [Menu.prompt] waits for a key, no result is
    recorded, the menu is not done, and the item set is still the one the
    caller gave. *)
Theorem waiting_session_has_no_result (text : string) (items : dict)
    (reads : list tty) (mode m : tmode) (self : Menu) :
  prompt text items reads mode = (Ok (Waiting self), m) ->
  value self = None /\ _done self = false /\ _items self = items.
Proof.
  intros H. apply run_waiting in H.
  apply (while_not_done_from_active reads _ mode m (Waiting self)) in H;
    try reflexivity; [exact H|apply fresh_view_of_items].
Qed.

(** A key that [Menu.prompt] returns is a key of the item set the caller
    gave, whatever was typed. *)
Theorem returned_key_is_an_item_key (text : string) (items : dict)
    (reads : list tty) (mode m : tmode) (k : string) :
  prompt text items reads mode = (Ok (Returned (Some k)), m) ->
  In k (keys items).
Proof.
  unfold prompt. rewrite run_unfold.
  change (set_selected_index
            (set_done (__init__ text items search_for_matches fuzz_scorer) false) 0)
    with (__init__ text items search_for_matches fuzz_scorer).
  destruct (while_not_done _ reads mode) as [[r|e] m1] eqn:E; simpl.
  - intros H. inversion H; subst.
    apply (while_not_done_from_active reads _ mode m (Returned (Some k))) in E;
      try reflexivity; [|apply fresh_view_of_items].
    destruct E as (k' & Ek & Hin). inversion Ek; subst. exact Hin.
  - destruct e; intros H; inversion H.
Qed.


Lemma ENTER_passes (mode : tmode) :
  fst (getchar WIN (typed ENTER) mode) = Ok ENTER.
Proof.
  rewrite getchar_typed_passes; [reflexivity|].
  now destruct (is_ok_facts ENTER eq_refl).
Qed.

(** Enter in an active state with a non-empty view: the loop returns the
    key under the cursor and reads no further. *)
Lemma while_not_done_enter (self : Menu) (reads : list tty) (mode : tmode) :
  _done self = false -> cursor_ok self -> _items_filtered self <> [] ->
  exists k,
    nth_error (keys (_items_filtered self)) (Z.to_nat (_selected_index self)) = Some k /\
    while_not_done self (typed ENTER :: reads) mode = (Ok (Returned (Some k)), mode).
Proof.
  intros Hd Hc Hne.
  destruct (confirm_selects_cursor_key self (typed ENTER) ENTER mode
              (ENTER_passes mode) eq_refl Hc Hne) as (k & Hk & E).
  exists k. split; [exact Hk|].
  simpl. rewrite Hd, E. destruct reads; reflexivity.
Qed.

Lemma enter_at_cursor (start self : Menu) (pre reads : list tty)
    (mode0 mode : tmode) :
  run start pre mode0 = (Ok (Waiting self), mode) ->
  _items_filtered self <> [] ->
  exists k,
    nth_error (keys (_items_filtered self)) (Z.to_nat (_selected_index self)) = Some k /\
    run start (pre ++ typed ENTER :: reads)%list mode0 = (Ok (Returned (Some k)), mode).
Proof.
  intros H Hne.
  pose proof (run_waiting _ _ _ _ _ H) as Hw.
  assert (Hc : cursor_ok self).
  { eapply waiting_cursor_ok; [|exact Hw]. now apply cursor_ok_zero. }
  destruct (while_not_done_enter self reads mode
              (while_not_done_waiting _ _ _ _ _ Hw) Hc Hne) as (k & Hk & E).
  exists k. split; [exact Hk|].
  rewrite (run_after_waiting _ _ _ _ _ _ H), E. reflexivity.
Qed.

(** At any point where a session waits with a non-empty view, Enter makes
    [run] return the key at the cursor's position in the view, which is a
    key of the view; the reads that follow are not consumed. *)
Theorem enter_returns_cursor_key (start self : Menu) (pre reads : list tty)
    (mode0 mode : tmode) :
  run start pre mode0 = (Ok (Waiting self), mode) ->
  _items_filtered self <> [] ->
  exists k,
    nth_error (keys (_items_filtered self)) (Z.to_nat (_selected_index self)) = Some k /\
    In k (keys (_items_filtered self)) /\
    run start (pre ++ typed ENTER :: reads)%list mode0 = (Ok (Returned (Some k)), mode).
Proof.
  intros H Hne.
  destruct (enter_at_cursor start self pre reads mode0 mode H Hne) as (k & Hk & E).
  exists k. split; [exact Hk|]. split; [|exact E].
  eapply nth_error_In; eassumption.
Qed.

Lemma DOWN_edit : is_edit DOWN = true.
Proof. unfold is_edit, passes, _translate_ch_to_exc. now destruct WIN. Qed.

Lemma UP_edit : is_edit UP = true.
Proof. unfold is_edit, passes, _translate_ch_to_exc. now destruct WIN. Qed.

(** Down on a fresh menu with the cursor at [i] moves it to [i + 1], but
    not past the last item. *)
Lemma on_key_down_fresh (text : string) (items : dict) (f : searcher)
    (g : string -> string -> Z) (i : Z) :
  0 <= i < Z.of_nat (List.length items) ->
  on_key (set_selected_index (__init__ text items f g) i) DOWN =
    Ok (set_selected_index (__init__ text items f g)
          (Z.min (i + 1) (Z.of_nat (List.length items) - 1))).
Proof.
  intros Hi. rewrite on_key_unfold. simpl. rewrite keys_length.
  unfold clamp. simpl.
  destruct (Z.of_nat (List.length items) <=? i + 1) eqn:E1; simpl.
  - destruct (Z.of_nat (List.length items) - 1 <? 0) eqn:E2; [lia|].
    unfold set_selected_index. simpl. do 2 f_equal. lia.
  - destruct (i + 1 <? 0) eqn:E2; [lia|].
    unfold set_selected_index. simpl. do 2 f_equal. lia.
Qed.

Lemma feed_downs_fresh (text : string) (items : dict) (f : searcher)
    (g : string -> string -> Z) (n : nat) (i : Z) :
  0 <= i < Z.of_nat (List.length items) ->
  feed (set_selected_index (__init__ text items f g) i) (repeat DOWN n) =
    Ok (set_selected_index (__init__ text items f g)
          (Z.min (i + Z.of_nat n) (Z.of_nat (List.length items) - 1))).
Proof.
  revert i. induction n as [|n IH]; intros i Hi.
  - simpl. unfold set_selected_index. simpl. do 2 f_equal. lia.
  - change (repeat DOWN (S n)) with (DOWN :: repeat DOWN n).
    cbn [feed]. rewrite on_key_down_fresh by exact Hi. cbn [bind].
    rewrite IH by lia. do 2 f_equal. lia.
Qed.

Lemma Forall_DOWN_edit (n : nat) : Forall (fun key => is_edit key = true) (repeat DOWN n).
Proof.
  induction n; simpl; constructor; [apply DOWN_edit|assumption].
Qed.

(** On a menu just opened with at least one item, [n] presses of Down and
    then Enter return the key of item [n] in insertion order, or the last
    item's key when [n] runs past the end. *)
Theorem downs_then_enter_choose (text : string) (items : dict) (n : nat)
    (reads : list tty) (mode : tmode) :
  items <> [] ->
  prompt text items (map typed (repeat DOWN n) ++ typed ENTER :: reads)%list mode
    = (Ok (Returned (nth_error (keys items) (Nat.min n (List.length items - 1)))),
       mode).
Proof.
  intros Hne. unfold prompt.
  assert (Hlen : 0 < Z.of_nat (List.length items))
    by (destruct items; [contradiction|simpl; lia]).
  set (start := __init__ text items search_for_matches fuzz_scorer).
  assert (Hpre : run start (map typed (repeat DOWN n)) mode =
                 (Ok (Waiting (set_selected_index start
                        (Z.min (0 + Z.of_nat n) (Z.of_nat (List.length items) - 1)))),
                  mode)).
  { rewrite run_unfold.
    change (set_selected_index (set_done start false) 0)
      with (set_selected_index start 0).
    rewrite while_not_done_feed by (reflexivity || apply Forall_DOWN_edit).
    unfold start. rewrite feed_downs_fresh by lia. reflexivity. }
  destruct (enter_at_cursor start _ (map typed (repeat DOWN n)) reads mode mode Hpre)
    as (k & Hk & E); [exact Hne|].
  rewrite E. do 3 f_equal. rewrite <- Hk. simpl. f_equal. lia.
Qed.


(** Up on the first row and Down on the last row change nothing: the state
    that [check_key] hands back is the state it was given. *)
Theorem arrows_stop_at_the_ends (self : Menu) (mode : tmode) :
  _items_filtered self <> [] ->
  (_selected_index self = 0 ->
   check_key self (typed UP) mode = (Ok self, mode)) /\
  (_selected_index self = Z.of_nat (List.length (_items_filtered self)) - 1 ->
   check_key self (typed DOWN) mode = (Ok self, mode)).
Proof.
  intros Hne.
  assert (Hlen : 0 < Z.of_nat (List.length (_items_filtered self)))
    by (destruct (_items_filtered self); [contradiction|simpl; lia]).
  split; intros Hi.
  - rewrite check_key_typed by (apply is_edit_facts, UP_edit).
    rewrite on_key_unfold. simpl. rewrite keys_length. unfold clamp. simpl.
    rewrite Hi.
    destruct (Z.of_nat (List.length (_items_filtered self)) <=? 0 - 1) eqn:E1; [lia|].
    simpl. destruct self; simpl in *; subst; reflexivity.
  - rewrite check_key_typed by (apply is_edit_facts, DOWN_edit).
    rewrite on_key_unfold. simpl. rewrite keys_length. unfold clamp. simpl.
    destruct (Z.of_nat (List.length (_items_filtered self)) <=? _selected_index self + 1)
      eqn:E1; [|lia].
    simpl.
    destruct (Z.of_nat (List.length (_items_filtered self)) - 1 <? 0) eqn:E2; [lia|].
    destruct self; simpl in *; subst; reflexivity.
Qed.

(** Backspace on an empty filter raises nothing and leaves the filter
    empty, but it is not a no-op: the cursor goes back to the first row and
    the view is set to the whole item set. *)
Theorem backspace_on_empty_filter (self : Menu) (mode : tmode) :
  filter self = "" ->
  exists self',
    check_key self (typed DEL) mode = (Ok self', mode) /\
    filter self' = "" /\ _selected_index self' = 0 /\
    _items_filtered self' = _items self /\ _items self' = _items self /\
    _done self' = _done self /\ value self' = value self.
Proof.
  intros Hf.
  destruct DEL_facts as (He & Hd & Hu & Hb).
  rewrite check_key_typed by (now apply is_edit_facts).
  rewrite on_key_unfold.
  destruct (is_edit_facts DEL He) as (_ & Hesc & Hok).
  rewrite Hesc, Hok, Hd, Hu, Hb, Hf.
  change (drop_last "") with "". cbn [andb].
  rewrite search_empty_filter by reflexivity. cbn [bind].
  eexists. split; [reflexivity|].
  match goal with
  | |- context [clamp ?n ?s] =>
      destruct (clamp_fields n s) as (E1 & E2 & E3 & E4 & E5 & _);
      rewrite E1, E2, E3, E4, E5
  end.
  repeat split.
  apply clamp_zero; [lia|reflexivity].
Qed.


(** ** Further properties: the matcher *)

Lemma insert_desc_head p l :
  Forall (fun r => snd r <= snd p) l -> insert_desc p l = p :: l.
Proof.
  intros H. destruct H as [|r l Hr Hl]; simpl; [reflexivity|].
  apply Z.leb_le in Hr. now rewrite Hr.
Qed.

Lemma sorted_head_bounds q l :
  StronglySorted score_ge (q :: l) -> Forall (fun r => snd r <= snd q) l.
Proof. intros H. inversion H; subst. assumption. Qed.

Lemma filter_insert_desc (f : string * Z -> bool) p l :
  StronglySorted score_ge l ->
  List.filter f (insert_desc p l) =
    if f p then insert_desc p (List.filter f l) else List.filter f l.
Proof.
  induction 1 as [|q l Hs IH Hq]; simpl.
  - now destruct (f p).
  - destruct (snd q <=? snd p) eqn:E.
    + apply Z.leb_le in E. simpl.
      destruct (f p); [|reflexivity].
      rewrite insert_desc_head; [reflexivity|].
      assert (Hall : Forall (fun r => snd r <= snd p) (q :: l)).
      { constructor; [exact E|]. eapply Forall_impl; [|exact Hq].
        unfold score_ge. intros r Hr. lia. }
      apply Forall_forall. intros r Hr.
      rewrite Forall_forall in Hall. apply Hall.
      change (In r (List.filter f (q :: l))) in Hr.
      now apply filter_In in Hr.
    + simpl. rewrite IH.
      destruct (f q), (f p); simpl; try reflexivity. now rewrite E.
Qed.

Lemma filter_sort_desc (f : string * Z -> bool) l :
  List.filter f (sort_desc l) = sort_desc (List.filter f l).
Proof.
  induction l as [|p l IH]; simpl; [reflexivity|].
  rewrite filter_insert_desc by apply sort_desc_sorted.
  rewrite IH. now destruct (f p).
Qed.

Lemma filter_all {A : Type} (f : A -> bool) (l : list A) :
  Forall (fun x => f x = true) l -> List.filter f l = l.
Proof.
  induction 1 as [|x l Hx Hl IH]; simpl; [reflexivity|]. now rewrite Hx, IH.
Qed.

Lemma filter_none {A : Type} (f : A -> bool) (l : list A) :
  Forall (fun x => f x = false) l -> List.filter f l = [].
Proof.
  induction 1 as [|x l Hx Hl IH]; simpl; [reflexivity|]. now rewrite Hx, IH.
Qed.

(** On a ranking in descending order, dropping the scores below [t]
    commutes with cutting at [n] entries. *)
Lemma filter_cut_firstn (t : Z) (n : nat) l :
  StronglySorted score_ge l ->
  List.filter (fun p => t <=? snd p) (firstn n l) =
  firstn n (List.filter (fun p => t <=? snd p) l).
Proof.
  intros H. revert n.
  induction H as [|q l Hs IH Hq]; intros n.
  - now rewrite !firstn_nil.
  - destruct (t <=? snd q) eqn:E.
    + destruct n as [|n]; [reflexivity|].
      simpl. rewrite E. simpl. now rewrite IH.
    + assert (Hnone : Forall (fun x : string * Z => (t <=? snd x) = false) (q :: l)).
      { constructor; [exact E|]. eapply Forall_impl; [|exact Hq].
        unfold score_ge. intros r Hr. apply Z.leb_gt in E. apply Z.leb_gt. lia. }
      rewrite (filter_none _ _ Hnone), firstn_nil.
      apply filter_none. apply Forall_forall. intros r Hr.
      rewrite Forall_forall in Hnone. apply Hnone.
      eapply In_firstn_In; eassumption.
Qed.

(** [search_for_matches] cuts the ranking at [limit] and then drops the
    scores below [threshold]. Nothing is lost by that order: the result is
    the [limit] best of the entries that reach the threshold. *)
Theorem threshold_before_limit (needle : string) (haystacks : list string)
    (limit threshold : Z) (scorer : string -> string -> Z) :
  search_for_matches needle haystacks limit threshold scorer =
    nlargest limit
      (List.filter (fun p => threshold <=? snd p)
         (extractWithoutOrder (lower needle) haystacks default_processor scorer 0)).
Proof.
  unfold search_for_matches, extract, nlargest. cbv zeta.
  rewrite threshold_filter_eq.
  rewrite filter_cut_firstn by apply sort_desc_sorted.
  now rewrite filter_sort_desc.
Qed.

Lemma sort_desc_sorted_id l : StronglySorted score_ge l -> sort_desc l = l.
Proof.
  induction 1 as [|q l Hs IH Hq]; simpl; [reflexivity|].
  rewrite IH. apply insert_desc_head.
  eapply Forall_impl; [|exact Hq]. unfold score_ge. auto.
Qed.

Lemma constant_scores_sorted (c : Z) (l : list string) :
  StronglySorted score_ge (map (fun choice => (choice, c)) l).
Proof.
  induction l as [|x l IH]; simpl; constructor; [exact IH|].
  apply Forall_forall. intros r Hr.
  apply in_map_iff in Hr as (y & <- & _). unfold score_ge. simpl. lia.
Qed.

(** A needle that the processor reduces to the empty string is a prefix of
    every option: with a threshold of at most 100 the search returns the
    first [limit] haystack entries, in their order, each with score 100. *)
Theorem empty_needle_matches_everything (needle : string)
    (haystacks : list string) (limit threshold : Z) :
  default_processor (lower needle) = "" ->
  threshold <= 100 ->
  search_for_matches needle haystacks limit threshold fuzz_scorer =
    firstn (Z.to_nat limit) (map (fun choice => (choice, 100)) haystacks).
Proof.
  intros Hp Ht. unfold search_for_matches. cbv zeta.
  rewrite threshold_filter_eq, extract_unfold, Hp.
  assert (Hs : map (fun choice => (choice, fuzz_scorer "" (default_processor choice)))
                   haystacks
               = map (fun choice => (choice, 100)) haystacks).
  { apply map_ext. intros c. unfold fuzz_scorer. reflexivity. }
  rewrite Hs.
  assert (Hall : forall t, t <= 100 ->
            Forall (fun x : string * Z => (t <=? snd x) = true)
                   (map (fun choice : string => (choice, 100)) haystacks)).
  { intros t Hle. apply Forall_forall. intros r Hr.
    apply in_map_iff in Hr as (y & <- & _). simpl. now apply Z.leb_le. }
  rewrite (filter_all _ _ (Hall 0 ltac:(lia))).
  rewrite sort_desc_sorted_id by apply constant_scores_sorted.
  apply filter_all. apply Forall_forall. intros r Hr.
  apply In_firstn_In in Hr.
  specialize (Hall threshold Ht). rewrite Forall_forall in Hall. now apply Hall.
Qed.

Lemma find_from_range (s sub : string) (i : Z) :
  find_from s sub i = -1 \/ i <= find_from s sub i <= i + len s.
Proof.
  revert i. induction s as [|c s IH]; intros i; simpl.
  - destruct (startswith "" sub); [right; unfold len; simpl; lia|now left].
  - destruct (startswith (String c s) sub).
    + right. pose proof (len_nonneg (String c s)). lia.
    + destruct (IH (i + 1)) as [H|H]; [now left|].
      right. unfold len in *. simpl String.length. lia.
Qed.

(** For a base score between 0 and 100 the score is never negative, the
    substring bonus never lowers it, and it stays within
    [100 + max (10 * len needle) (len option)]. *)
Theorem fuzz_scorer_range (needle option : string) :
  (forall a b, 0 <= WRatio a b <= 100) ->
  0 <= fuzz_scorer needle option <= 100 + Z.max (10 * len needle) (len option) /\
  (startswith option needle = false ->
   WRatio needle option <= fuzz_scorer needle option).
Proof.
  intros HW. specialize (HW needle option).
  pose proof (len_nonneg needle). pose proof (len_nonneg option).
  destruct (startswith option needle) eqn:P.
  - rewrite fuzz_scorer_prefix by exact P. split; [lia|discriminate].
  - rewrite fuzz_scorer_no_prefix by exact P.
    destruct (find_from_range option needle 0) as [F|F]; fold (find option needle) in F.
    + rewrite F, andb_false_r. split; [lia|intros _; lia].
    + destruct ((30 <=? WRatio needle option) && (-1 <? find option needle));
        (split; [lia|intros _; lia]).
Qed.

Lemma In_insert_desc_iff x p l : In x (insert_desc p l) <-> x = p \/ In x l.
Proof using.
  clear. split; [apply In_insert_desc|].
  induction l as [|q l IH]; simpl.
  - intros [->|[]]. now left.
  - destruct (snd q <=? snd p); simpl; intuition.
Qed.

Lemma In_sort_desc_iff x l : In x (sort_desc l) <-> In x l.
Proof using.
  clear. induction l as [|p l IH]; simpl; [reflexivity|].
  rewrite In_insert_desc_iff, IH. intuition.
Qed.

Lemma sort_desc_length l : List.length (sort_desc l) = List.length l.
Proof.
  induction l as [|p l IH]; simpl; [reflexivity|].
  rewrite <- IH. generalize (sort_desc l). intros m.
  induction m as [|q m IHm]; simpl; [reflexivity|].
  destruct (snd q <=? snd p); simpl; [reflexivity|now rewrite IHm].
Qed.

(** When the limit is no smaller than the haystack, the search returns
    exactly the haystack entries whose score reaches the threshold and is
    not negative, each with the score of the scorer on the processed
    needle and entry. *)
Theorem search_for_matches_complete (needle : string) (haystacks : list string)
    (limit threshold : Z) (scorer : string -> string -> Z) (option : string) (s : Z) :
  Z.of_nat (List.length haystacks) <= limit ->
  (In (option, s) (search_for_matches needle haystacks limit threshold scorer) <->
   In option haystacks /\
   s = scorer (default_processor (lower needle)) (default_processor option) /\
   threshold <= s /\ 0 <= s).
Proof using default_processor.
  clear WRatio WIN.
  intros Hlimit. rewrite threshold_before_limit. unfold nlargest, extractWithoutOrder.
  cbv zeta.
  rewrite firstn_all2.
  - rewrite In_sort_desc_iff, !filter_In, in_map_iff. simpl.
    rewrite Z.leb_le, Z.leb_le. split.
    + intros [[(c & E & Hc) H0] Ht]. inversion E; subst. auto.
    + intros (Hc & -> & Ht & H0). repeat split; auto. exists option. auto.
  - rewrite sort_desc_length.
    etransitivity; [apply filter_length_le|].
    etransitivity; [apply filter_length_le|].
    rewrite length_map. lia.
Qed.


(** ** Further properties: the view follows the ranking *)

Lemma map_candidate (items : dict) :
  map (fun '(key, desc) => key ++ ": " ++ desc) items = map candidate items.
Proof. apply map_ext. now intros [k v]. Qed.

Lemma candidate_partition (k v : string) :
  contains_char ":" k = false ->
  partition (candidate (k, v)) ":" = (k, ":", String " " v).
Proof.
  intros H. unfold candidate. simpl.
  apply (partition_before ":" k (String " " v) H).
Qed.

Lemma NoDup_keys_unique (items : dict) (k v w : string) :
  NoDup (keys items) -> In (k, v) items -> In (k, w) items -> v = w.
Proof.
  unfold keys. induction items as [|[k0 v0] items IH]; simpl; [contradiction|].
  intros Hn. inversion Hn as [|? ? Hnot Hrest]; subst.
  intros [E1|H1] [E2|H2].
  - congruence.
  - inversion E1; subst. exfalso. apply Hnot.
    apply in_map_iff. now exists (k, w).
  - inversion E2; subst. exfalso. apply Hnot.
    apply in_map_iff. now exists (k, v).
  - auto.
Qed.

Lemma dict_get_unique (items : dict) (k v : string) :
  NoDup (keys items) -> In (k, v) items -> dict_get items k = Ok v.
Proof.
  intros Hn Hin. destruct (dict_get_In items k v Hin) as [v' E].
  rewrite E. f_equal. eapply NoDup_keys_unique; eauto using dict_get_Ok_In.
Qed.

Lemma dict_set_fresh (d : dict) (k v : string) :
  ~ In k (keys d) -> dict_set d k v = (d ++ [(k, v)])%list.
Proof.
  unfold keys. induction d as [|[k0 v0] d IH]; simpl; intros H; [reflexivity|].
  destruct (String.eqb_spec k0 k) as [->|_]; [exfalso; auto|].
  rewrite IH; auto.
Qed.

Lemma NoDup_candidates (items : dict) :
  colon_free items = true -> NoDup (keys items) -> NoDup (map candidate items).
Proof.
  intros Hc Hn.
  induction items as [|[k v] items IH]; simpl; constructor.
  - intros Hin. apply in_map_iff in Hin as ([k' v'] & E & Hin).
    assert (Hk : contains_char ":" k = false)
      by (eapply colon_free_In; [exact Hc|now left]).
    assert (Hk' : contains_char ":" k' = false)
      by (eapply colon_free_In; [exact Hc|right; exact Hin]).
    apply (f_equal (fun s => partition s ":")) in E.
    rewrite !candidate_partition in E by assumption.
    inversion E; subst.
    inversion Hn as [|? ? Hnot _]; subst. apply Hnot.
    apply in_map_iff. eexists. split; [|exact Hin]. reflexivity.
  - apply IH.
    + unfold colon_free in *. simpl in Hc. now apply andb_true_iff in Hc.
    + now inversion Hn.
Qed.

Lemma NoDup_fst_filter (f : string * Z -> bool) l :
  NoDup (map fst l) -> NoDup (map fst (List.filter f l)).
Proof.
  induction l as [|p l IH]; simpl; intros H; [constructor|].
  inversion H as [|? ? Hnot Hrest]; subst.
  destruct (f p); simpl; [|auto].
  constructor; [|auto].
  intros Hin. apply Hnot. apply in_map_iff in Hin as (q & E & Hq).
  apply filter_In in Hq as [Hq _]. apply in_map_iff. now exists q.
Qed.

Lemma NoDup_fst_firstn (n : nat) (l : list (string * Z)) :
  NoDup (map fst l) -> NoDup (map fst (firstn n l)).
Proof.
  revert n. induction l as [|p l IH]; intros [|n]; simpl; intros H;
    try constructor.
  - inversion H as [|? ? Hnot _]; subst. intros Hin. apply Hnot.
    apply in_map_iff in Hin as (q & E & Hq). apply In_firstn_In in Hq.
    apply in_map_iff. now exists q.
  - apply IH. now inversion H.
Qed.

Lemma NoDup_fst_insert_desc p l :
  ~ In (fst p) (map fst l) -> NoDup (map fst l) ->
  NoDup (map fst (insert_desc p l)).
Proof.
  induction l as [|q l IH]; simpl; intros Hnot Hn.
  - repeat constructor. auto.
  - destruct (snd q <=? snd p); simpl.
    + constructor; assumption.
    + inversion Hn as [|? ? Hq Hl]; subst. constructor.
      * intros Hin. apply in_map_iff in Hin as (r & E & Hr).
        apply In_insert_desc in Hr as [->|Hr]; [apply Hnot; now left|].
        apply Hq. apply in_map_iff. now exists r.
      * apply IH; [|exact Hl]. intros Hin. apply Hnot. now right.
Qed.

Lemma NoDup_fst_sort_desc l :
  NoDup (map fst l) -> NoDup (map fst (sort_desc l)).
Proof.
  induction l as [|p l IH]; simpl; intros H; [constructor|].
  inversion H as [|? ? Hnot Hl]; subst.
  apply NoDup_fst_insert_desc; [|auto].
  intros Hin. apply Hnot. apply in_map_iff in Hin as (q & E & Hq).
  apply In_sort_desc in Hq. apply in_map_iff. now exists q.
Qed.

(** Distinct haystack entries give results with distinct options. *)
Lemma search_for_matches_NoDup needle haystacks limit threshold scorer :
  NoDup haystacks ->
  NoDup (map fst (search_for_matches needle haystacks limit threshold scorer)).
Proof.
  intros H. unfold search_for_matches. cbv zeta.
  rewrite threshold_filter_eq, extract_unfold.
  apply NoDup_fst_filter, NoDup_fst_firstn, NoDup_fst_sort_desc, NoDup_fst_filter.
  rewrite map_map. simpl. now rewrite map_id.
Qed.

Lemma search_loop_exact (items : dict) (results : list (string * Z)) (filtered : dict) :
  colon_free items = true ->
  NoDup (keys items) ->
  (forall option, In option (map fst results) -> In option (map candidate items)) ->
  NoDup (map fst results) ->
  (forall kd, In kd filtered -> In kd items) ->
  (forall option, In option (map fst results) -> ~ In option (map candidate filtered)) ->
  exists d,
    search_loop items results filtered = Ok d /\
    map candidate d = (map candidate filtered ++ map fst results)%list.
Proof.
  intros Hc Hn. revert filtered.
  induction results as [|[option sc] results IH]; intros filtered Hres Hnd Hsub Hnew.
  - exists filtered. simpl. now rewrite app_nil_r.
  - simpl in Hres, Hnd, Hnew.
    destruct (proj1 (in_map_iff _ _ _) (Hres option (or_introl eq_refl)))
      as ([k v] & <- & Hin).
    assert (Hk : contains_char ":" k = false) by (eapply colon_free_In; eassumption).
    assert (Hfresh : ~ In k (keys filtered)).
    { intros Hkin. apply (Hnew (candidate (k, v)) (or_introl eq_refl)).
      unfold keys in Hkin. apply in_map_iff in Hkin as ([k' w] & E & Hw).
      simpl in E. subst k'. apply in_map_iff. exists (k, w). split; [|exact Hw].
      f_equal. f_equal. symmetry. eapply NoDup_keys_unique; eauto. }
    cbn [search_loop]. rewrite (candidate_partition k v Hk).
    rewrite (dict_get_unique items k v Hn Hin). cbn [bind].
    rewrite (dict_set_fresh filtered k v Hfresh).
    inversion Hnd as [|? ? Hnot Hnd']; subst.
    destruct (IH (filtered ++ [(k, v)])%list) as (d & E & Hd).
    + intros o Ho. apply Hres. now right.
    + exact Hnd'.
    + intros kd Hkd. apply in_app_or in Hkd as [Hkd|[<-|[]]]; auto.
    + intros o Ho Hin'. rewrite map_app in Hin'.
      apply in_app_or in Hin' as [Hin'|[E|[]]].
      * apply (Hnew o (or_intror Ho) Hin').
      * simpl in E. subst o. contradiction.
    + exists d. split; [exact E|].
      rewrite Hd, map_app. simpl. now rewrite <- app_assoc.
Qed.

(** For an item set with distinct keys that contain no colon, [search]
    with a filter typed never fails, and the view lists the matched items
    in the order of the ranking: the candidate strings of the view are the
    options that [search_for_matches] returned, best first. *)
Theorem view_follows_ranking (self : Menu) :
  truthy (filter self) = true ->
  colon_free (_items self) = true ->
  NoDup (keys (_items self)) ->
  exists d,
    search self = Ok (set_items_filtered self d) /\
    map candidate d =
      map fst (search_for_matches (filter self) (map candidate (_items self))
                                  default_limit default_threshold fuzz_scorer).
Proof.
  intros T Hc Hn. unfold search. rewrite T, map_candidate.
  set (results := search_for_matches (filter self) (map candidate (_items self))
                    default_limit default_threshold fuzz_scorer).
  destruct (search_loop_exact (_items self) results [] Hc Hn) as (d & E & Hd).
  - intros o Ho. apply in_map_iff in Ho as ([o' sc] & <- & Ho).
    eapply search_for_matches_In. exact Ho.
  - apply search_for_matches_NoDup. now apply NoDup_candidates.
  - intros kd [].
  - intros o _ [].
  - exists d. rewrite E. split; [reflexivity|exact Hd].
Qed.


(** ** Further properties: the table *)

Lemma generate_rows_plain (self : Menu) (items : dict) (index : Z) (table : list row) :
  _done self = false ->
  _selected_index self < index \/
    index + Z.of_nat (List.length items) <= _selected_index self ->
  generate_rows self items index table =
    (table ++ map (fun kd => plain_row (snd kd)) items)%list.
Proof.
  intros Hd. revert index table.
  induction items as [|[k l] items IH]; intros index table Hout; simpl.
  - now rewrite app_nil_r.
  - rewrite Hd. simpl andb. cbv iota.
    destruct (_selected_index self =? index) eqn:E;
      [apply Z.eqb_eq in E; simpl List.length in Hout; lia|].
    rewrite IH by (simpl List.length in Hout; lia).
    unfold add_row. now rewrite <- app_assoc.
Qed.

Lemma generate_rows_cursor (self : Menu) (items : dict) (index : Z)
    (table : list row) (i : nat) (k l : string) :
  _done self = false ->
  nth_error items i = Some (k, l) ->
  _selected_index self = index + Z.of_nat i ->
  generate_rows self items index table =
    (table ++ map (fun kd => plain_row (snd kd)) (firstn i items)
       ++ cursor_row l :: map (fun kd => plain_row (snd kd)) (skipn (S i) items))%list.
Proof.
  intros Hd. revert index table i.
  induction items as [|[k0 l0] items IH]; intros index table i Hnth Hi.
  - destruct i; discriminate.
  - simpl generate_rows. rewrite Hd. simpl andb. cbv iota.
    destruct i as [|i]; simpl in Hnth.
    + inversion Hnth; subst.
      replace (_selected_index self =? index) with true
        by (symmetry; apply Z.eqb_eq; lia).
      rewrite generate_rows_plain by (exact Hd || lia).
      unfold add_row. simpl. now rewrite <- app_assoc.
    + replace (_selected_index self =? index) with false
        by (symmetry; apply Z.eqb_neq; lia).
      rewrite (IH (index + 1) _ i Hnth) by lia.
      unfold add_row. simpl. now rewrite <- app_assoc.
Qed.

Lemma generate_rows_skip (self : Menu) (items : dict) (index : Z) (table : list row) :
  _done self = true ->
  _selected_index self < index \/
    index + Z.of_nat (List.length items) <= _selected_index self ->
  generate_rows self items index table = table.
Proof.
  intros Hd. revert index table.
  induction items as [|[k l] items IH]; intros index table Hout; simpl.
  - reflexivity.
  - rewrite Hd. simpl andb.
    destruct (index =? _selected_index self) eqn:E;
      [apply Z.eqb_eq in E; simpl List.length in Hout; lia|].
    simpl. apply IH. simpl List.length in Hout. lia.
Qed.

Lemma generate_rows_chosen (self : Menu) (items : dict) (index : Z)
    (table : list row) (i : nat) (k l : string) :
  _done self = true ->
  nth_error items i = Some (k, l) ->
  _selected_index self = index + Z.of_nat i ->
  generate_rows self items index table = (table ++ [chosen_row l; blank_row])%list.
Proof.
  intros Hd. revert index table i.
  induction items as [|[k0 l0] items IH]; intros index table i Hnth Hi.
  - destruct i; discriminate.
  - simpl generate_rows. rewrite Hd. simpl andb.
    destruct i as [|i]; simpl in Hnth.
    + inversion Hnth; subst.
      replace (index =? _selected_index self) with true
        by (symmetry; apply Z.eqb_eq; lia).
      replace (_selected_index self =? index) with true
        by (symmetry; apply Z.eqb_eq; lia).
      simpl. rewrite generate_rows_skip by (exact Hd || lia).
      unfold add_row. now rewrite <- app_assoc.
    + replace (index =? _selected_index self) with false
        by (symmetry; apply Z.eqb_neq; lia).
      simpl. apply (IH (index + 1) _ i Hnth). lia.
Qed.

(** While the menu is active the table has one row per item of the view, in
    the order of the view: the item under the cursor is the only one marked
    and underlined, the others are plain. An empty view shows the
    placeholder row instead. The blank rows and, when a filter is typed,
    the filter row follow. *)
Theorem active_table_marks_the_cursor (self : Menu) :
  _done self = false ->
  (_items_filtered self = [] -> generate self = no_match_row :: footer self) /\
  (forall (i : nat) (k l : string),
     nth_error (_items_filtered self) i = Some (k, l) ->
     _selected_index self = Z.of_nat i ->
     generate self =
       (map (fun kd => plain_row (snd kd)) (firstn i (_items_filtered self))
          ++ cursor_row l
          :: map (fun kd => plain_row (snd kd)) (skipn (S i) (_items_filtered self))
          ++ footer self)%list).
Proof.
  intros Hd. split.
  - intros He. unfold generate, footer. rewrite He, Hd. simpl.
    now destruct (truthy (filter self)).
  - intros i k l Hnth Hi. unfold generate. cbv zeta.
    rewrite (generate_rows_cursor self _ 0 [] i k l Hd Hnth) by lia.
    assert (Hne : nonempty (_items_filtered self) = true)
      by (destruct (_items_filtered self); [destruct i; discriminate|reflexivity]).
    rewrite Hne, Hd. simpl negb. cbv iota.
    unfold footer, add_row.
    destruct (truthy (filter self)); simpl;
      rewrite <- ?app_assoc; simpl; rewrite <- ?app_assoc; reflexivity.
Qed.

(** Once an item is chosen the table has two rows: the chosen item's label
    with the check mark, and a blank row. No other item, no placeholder and
    no filter row is shown. *)
Theorem done_table_shows_the_choice (self : Menu) (i : nat) (k l : string) :
  _done self = true ->
  nth_error (_items_filtered self) i = Some (k, l) ->
  _selected_index self = Z.of_nat i ->
  generate self = [chosen_row l; blank_row].
Proof.
  intros Hd Hnth Hi. unfold generate. cbv zeta.
  rewrite (generate_rows_chosen self _ 0 [] i k l Hd Hnth) by lia.
  assert (Hne : nonempty (_items_filtered self) = true)
    by (destruct (_items_filtered self); [destruct i; discriminate|reflexivity]).
  now rewrite Hne, Hd.
Qed.

End Model.

(** ** The stand-in similarity function is a score between 0 and 100 *)

Lemma lcs_le_left (a b : string) : (lcs a b <= String.length a)%nat.
Proof.
  revert b. induction a as [|x a IHa]; intros b; [simpl; lia|].
  induction b as [|y b IHb]; [simpl; lia|].
  simpl in *. destruct (Ascii.eqb x y).
  - specialize (IHa b). lia.
  - specialize (IHa (String y b)). lia.
Qed.

Lemma lcs_le_right (a b : string) : (lcs a b <= String.length b)%nat.
Proof.
  revert b. induction a as [|x a IHa]; intros b; [simpl; lia|].
  induction b as [|y b IHb]; [simpl; lia|].
  simpl in *. destruct (Ascii.eqb x y).
  - specialize (IHa b). lia.
  - specialize (IHa (String y b)). simpl in IHa. lia.
Qed.

Lemma ratio_range (a b : string) : 0 <= ratio a b <= 100.
Proof.
  unfold ratio, len. cbv zeta.
  destruct (Z.of_nat (String.length a) + Z.of_nat (String.length b) =? 0) eqn:E;
    [lia|].
  apply Z.eqb_neq in E.
  pose proof (lcs_le_left a b). pose proof (lcs_le_right a b).
  split.
  - apply Z.div_pos; lia.
  - apply Z.div_le_upper_bound; lia.
Qed.

Lemma partial_ratio_range (a b : string) : 0 <= partial_ratio a b <= 100.
Proof.
  unfold partial_ratio.
  destruct (if len a <=? len b then (a, b) else (b, a)) as [short long].
  induction (windows (String.length short) long) as [|w ws IH]; simpl; [lia|].
  pose proof (ratio_range short w). lia.
Qed.

Lemma simple_WRatio_range (a b : string) : 0 <= simple_WRatio a b <= 100.
Proof.
  unfold simple_WRatio. destruct (negb (truthy a) || negb (truthy b)); [lia|].
  cbv zeta. pose proof (ratio_range a b) as Hr.
  destruct (2 * Z.max (len a) (len b) <? 3 * Z.min (len a) (len b)); [exact Hr|].
  pose proof (partial_ratio_range a b) as Hp.
  destruct (8 * Z.min (len a) (len b) <? Z.max (len a) (len b)).
  - assert (0 <= partial_ratio a b * 60 / 100 <= 100).
    { split; [apply Z.div_pos; lia|apply Z.div_le_upper_bound; lia]. }
    lia.
  - assert (0 <= partial_ratio a b * 90 / 100 <= 100).
    { split; [apply Z.div_pos; lia|apply Z.div_le_upper_bound; lia]. }
    lia.
Qed.

(** The scenarios of the specification, run on the model. *)

Example two_downs_then_enter_choose_c :
  prompt simple_WRatio full_process false "" fruit
         (map typed [DOWN; DOWN; ENTER]) Cooked
  = (Ok (Returned (Some "c")), Cooked).
Proof. vm_compute. reflexivity. Qed.

Example typing_ba_leaves_banana :
  feed simple_WRatio full_process (fresh_menu simple_WRatio full_process fruit) ["b"; "a"]
  = Ok (banana_menu simple_WRatio full_process).
Proof. reflexivity. Qed.

Example typing_ba_then_enter_chooses_b :
  prompt simple_WRatio full_process false "" fruit
         (map typed ["b"; "a"; ENTER]) Cooked
  = (Ok (Returned (Some "b")), Cooked).
Proof. vm_compute. reflexivity. Qed.

Example typing_zq_matches_nothing :
  feed simple_WRatio full_process (fresh_menu simple_WRatio full_process fruit) ["z"; "q"]
  = Ok (no_match_menu simple_WRatio full_process).
Proof. reflexivity. Qed.

Example escape_twice_cancels :
  prompt simple_WRatio full_process false "" fruit
         (map typed ["z"; "q"; ESCAPE; ESCAPE]) Cooked
  = (Ok (Returned None), Cooked).
Proof. vm_compute. reflexivity. Qed.

(** ** The theorems at concrete inputs *)

Lemma substring_bonus_outranks_prefix_witness :
  30 <= simple_WRatio "e" minds_option /\
  fuzz_scorer simple_WRatio "e" exit_option
    < fuzz_scorer simple_WRatio "e" minds_option.
Proof.
  assert (H : 30 <= simple_WRatio "e" minds_option) by (vm_compute; discriminate).
  split; [exact H|].
  apply (substring_bonus_outranks_prefix simple_WRatio H).
Defined.

Lemma prefix_score_grows_witness :
  startswith "apple" "a" = true /\ startswith "apple" "ap" = true /\
  len "a" < len "ap" /\
  fuzz_scorer simple_WRatio "a" "apple" = 100 + 10 * len "a" /\
  100 <= fuzz_scorer simple_WRatio "a" "apple" /\
  fuzz_scorer simple_WRatio "a" "apple" < fuzz_scorer simple_WRatio "ap" "apple".
Proof.
  repeat (split; [reflexivity|]).
  apply (prefix_score_grows simple_WRatio "apple" "a" "ap"); reflexivity.
Defined.

Lemma search_for_matches_ranked_witness :
  0 <= default_limit /\
  Z.of_nat (List.length
    (search_for_matches full_process "A" ["a: Apple"; "b: Banana"; "c: Cherry"]
       default_limit default_threshold (fuzz_scorer simple_WRatio))) <= default_limit /\
  StronglySorted score_ge
    (search_for_matches full_process "A" ["a: Apple"; "b: Banana"; "c: Cherry"]
       default_limit default_threshold (fuzz_scorer simple_WRatio)).
Proof.
  assert (H : 0 <= default_limit) by (unfold default_limit; lia).
  split; [exact H|].
  destruct (search_for_matches_ranked full_process "A"
              ["a: Apple"; "b: Banana"; "c: Cherry"] default_limit default_threshold
              (fuzz_scorer simple_WRatio) H) as (Hlen & _ & Hsorted & _).
  split; [exact Hlen|exact Hsorted].
Defined.

Lemma confirm_on_empty_view_edits_filter_witness :
  exists self',
    check_key simple_WRatio full_process false (no_match_menu simple_WRatio full_process) (typed ENTER) Cooked
      = (Ok self', Cooked) /\
    filter self' = "zq" ++ ENTER /\
    filter self' <> "zq" /\
    _done self' = false.
Proof.
  apply (confirm_on_empty_view_edits_filter simple_WRatio full_process false
           (no_match_menu simple_WRatio full_process) (typed ENTER) ENTER Cooked); reflexivity.
Defined.

Lemma cancel_clears_or_quits_witness :
  (exists self',
     check_key simple_WRatio full_process false (banana_menu simple_WRatio full_process) (typed ESCAPE) Cooked
       = (Ok self', Cooked) /\
     filter self' = "" /\ _selected_index self' = 0 /\
     _items_filtered self' = fruit /\ _items self' = fruit /\
     _done self' = false /\ value self' = None) /\
  run simple_WRatio full_process false (fresh_menu simple_WRatio full_process fruit) [typed ESCAPE] Cooked
    = (Ok (Returned None), Cooked).
Proof.
  split.
  - apply (proj1 (cancel_clears_or_quits simple_WRatio full_process false
                    (banana_menu simple_WRatio full_process) (typed ESCAPE) ESCAPE [] Cooked eq_refl eq_refl)).
    discriminate.
  - apply (proj2 (proj2 (cancel_clears_or_quits simple_WRatio full_process false
                    (fresh_menu simple_WRatio full_process fruit) (typed ESCAPE) ESCAPE [] Cooked eq_refl eq_refl)
                    eq_refl) (fresh_menu simple_WRatio full_process fruit) [] Cooked).
    reflexivity.
Defined.

Lemma cursor_stays_in_view_witness :
  Forall (fun key => is_edit false key = true) [DOWN; DOWN; DOWN; UP; "b"; DEL] /\
  match fst (run simple_WRatio full_process false (fresh_menu simple_WRatio full_process fruit)
                 (map typed [DOWN; DOWN; DOWN; UP; "b"; DEL]) Cooked) with
  | Ok (Waiting self') =>
      (_items_filtered self' = [] -> _selected_index self' = 0) /\
      (_items_filtered self' <> [] ->
       0 <= _selected_index self' < Z.of_nat (List.length (_items_filtered self')))
  | Raise (KeyError _) => colon_free (_items (fresh_menu simple_WRatio full_process fruit)) = false
  | _ => False
  end.
Proof.
  assert (H : Forall (fun key => is_edit false key = true)
                     [DOWN; DOWN; DOWN; UP; "b"; DEL])
    by (repeat constructor).
  split; [exact H|].
  apply (cursor_stays_in_view simple_WRatio full_process false (fresh_menu simple_WRatio full_process fruit)
           [DOWN; DOWN; DOWN; UP; "b"; DEL] Cooked H).
Defined.

Lemma filter_roundtrip_witness :
  Forall (fun key => is_char false key = true) ["B"; "a"] /\
  (typed_length ["B"; "a"] <= 3)%nat /\
  match fst (run simple_WRatio full_process false (fresh_menu simple_WRatio full_process fruit)
                 (map typed ["B"; "a"] ++ repeat (typed DEL) 3) Cooked) with
  | Ok (Waiting self') => filter self' = "" /\ _items_filtered self' = fruit
  | Raise (KeyError _) => colon_free fruit = false
  | _ => False
  end.
Proof.
  assert (H : Forall (fun key => is_char false key = true) ["B"; "a"])
    by (repeat constructor).
  assert (Hn : (typed_length ["B"; "a"] <= 3)%nat) by (vm_compute; lia).
  split; [exact H|]. split; [exact Hn|].
  apply (filter_roundtrip simple_WRatio full_process false "" fruit
           (search_for_matches full_process) (fuzz_scorer simple_WRatio)
           ["B"; "a"] 3 Cooked H Hn).
Defined.

Lemma colon_key_raises_KeyError_witness :
  search_for_matches full_process (lower "a") ["a:b" ++ ": " ++ "x"]
                     default_limit default_threshold (fuzz_scorer simple_WRatio)
    = [("a:b" ++ ": " ++ "x", 110)] /\
  run simple_WRatio full_process false (fresh_menu simple_WRatio full_process [("a:b", "x")]) [typed "a"] Cooked
    = (Raise (KeyError "a"), Cooked).
Proof.
  assert (H : search_for_matches full_process (lower "a") ["a:b" ++ ": " ++ "x"]
                default_limit default_threshold (fuzz_scorer simple_WRatio)
              = [("a:b" ++ ": " ++ "x", 110)]) by (vm_compute; reflexivity).
  split; [exact H|].
  apply (proj2 (proj2 (colon_key_raises_KeyError simple_WRatio full_process false
                         "" "a:b" "x" (search_for_matches full_process)
                         (fuzz_scorer simple_WRatio) "a" 110 [] Cooked
                         eq_refl eq_refl eq_refl H))).
Defined.

Lemma no_terminal_surfaces_OSError_witness :
  stdin_isatty no_terminal = false /\ dev_tty_opens no_terminal = false /\
  run simple_WRatio full_process false (fresh_menu simple_WRatio full_process fruit) [no_terminal] Cooked
    = (Raise OSError, Cooked).
Proof.
  repeat (split; [reflexivity|]).
  apply (no_terminal_surfaces_OSError simple_WRatio full_process false
           (fresh_menu simple_WRatio full_process fruit) no_terminal [] Cooked eq_refl eq_refl eq_refl).
Defined.

(** ** Where two claims fail *)

(** The claim C6 fails as it is stated. ["apPle"] starts with ["ap"] and with ["app"] when
    case is ignored, but only with ["ap"] as written: the longer needle
    falls to the base score, which for any similarity function bounded by
    100 is below the 120 of the shorter needle. With the stand-in
    similarity function, ["app"] against ["Apple"] scores below 100. *)
Lemma case_folded_prefix_scores_lower :
  startswith (lower "apPle") (lower "ap") = true /\
  startswith (lower "apPle") (lower "app") = true /\
  len "ap" < len "app" /\
  (forall W : string -> string -> Z,
     (forall a b, W a b <= 100) ->
     fuzz_scorer W "app" "apPle" < fuzz_scorer W "ap" "apPle") /\
  startswith (lower "Apple") (lower "app") = true /\
  fuzz_scorer simple_WRatio "app" "Apple" < 100.
Proof.
  repeat (split; [reflexivity|]). split; [|split; reflexivity].
  intros W HW.
  rewrite (fuzz_scorer_prefix W "ap" "apPle" eq_refl).
  rewrite (fuzz_scorer_no_bonus W "app" "apPle" eq_refl eq_refl).
  specialize (HW "app" "apPle"). change (len "ap") with 2. lia.
Qed.

(** The claim C8 fails as it is stated. Without a terminal to open, the first [getchar] of
    the session raises [OSError]; when the terminal attributes cannot be
    read, it raises [RuntimeError]. [prompt] hands both to its caller
    instead of returning [None]. *)
Lemma no_terminal_session_raises :
  prompt simple_WRatio full_process false "" fruit [no_terminal] Cooked
    = (Raise OSError, Cooked) /\
  prompt simple_WRatio full_process false "" fruit [no_termios] Cooked
    = (Raise RuntimeError, Cooked) /\
  prompt simple_WRatio full_process false "" fruit [no_terminal] Cooked
    <> (Ok (Returned None), Cooked).
Proof.
  repeat split. discriminate.
Qed.

(** ** The further properties at concrete inputs *)

Lemma outcome_is_final_witness :
  run simple_WRatio full_process false (fresh_menu simple_WRatio full_process fruit)
      (map typed [DOWN; ENTER] ++ map typed ["b"; ESCAPE]) Cooked
  = (Ok (Returned (Some "b")), Cooked).
Proof.
  rewrite (outcome_is_final simple_WRatio full_process false
             (fresh_menu simple_WRatio full_process fruit)
             (map typed [DOWN; ENTER]) (map typed ["b"; ESCAPE]) Cooked).
  - reflexivity.
  - intros s. vm_compute. discriminate.
Defined.

Lemma interrupt_returns_None_witness :
  run simple_WRatio full_process false (fresh_menu simple_WRatio full_process fruit)
      (map typed ["b"; DOWN] ++ typed CTRL_C :: map typed [ENTER]) Cooked
  = (Ok (Returned None), Cooked).
Proof.
  apply (interrupt_returns_None simple_WRatio full_process false
           (fresh_menu simple_WRatio full_process fruit)
           (set_items_filtered
              (set_filter (fresh_menu simple_WRatio full_process fruit) "b")
              [("b", "Banana")])
           (map typed ["b"; DOWN]) (map typed [ENTER]) Cooked Cooked).
  reflexivity.
Defined.

Lemma end_of_input_returns_None_witness :
  run simple_WRatio full_process true (fresh_menu simple_WRatio full_process fruit)
      (map typed ["b"] ++ typed (end_of_input true) :: map typed [ENTER]) Cooked
  = (Ok (Returned None), Cooked) /\
  getchar true (typed CTRL_D) Cooked = (Ok CTRL_D, Cooked).
Proof.
  apply (end_of_input_returns_None simple_WRatio full_process true
           (fresh_menu simple_WRatio full_process fruit)
           (set_items_filtered
              (set_filter (fresh_menu simple_WRatio full_process fruit) "b")
              [("b", "Banana")])
           (map typed ["b"]) (map typed [ENTER]) Cooked Cooked).
  reflexivity.
Defined.

Lemma windows_special_key_is_typed_witness :
  getchar true windows_up_arrow Cooked = (Ok (String "224" "H"), Cooked) /\
  is_up (String "224" "H") = false /\
  is_down (String "224" "H") = false /\
  match fst (check_key simple_WRatio full_process true
                       (fresh_menu simple_WRatio full_process fruit)
                       windows_up_arrow Cooked) with
  | Ok self' => filter self' = String "224" "h"
  | Raise (KeyError _) => colon_free fruit = false
  | Raise _ => False
  end.
Proof.
  destruct (windows_special_key_is_typed simple_WRatio full_process true
              (fresh_menu simple_WRatio full_process fruit) windows_up_arrow Cooked
              eq_refl eq_refl) as (Hg & Hu & Hd & _ & _ & _ & Hm).
  split; [exact Hg|]. split; [exact Hu|]. split; [exact Hd|]. exact Hm.
Defined.

Lemma filtered_view_is_bounded_witness :
  (List.length (_items_filtered (banana_menu simple_WRatio full_process)) <= 10)%nat /\
  NoDup (keys (_items_filtered (banana_menu simple_WRatio full_process))) /\
  (forall kd, In kd (_items_filtered (banana_menu simple_WRatio full_process)) ->
              In kd fruit).
Proof.
  apply (filtered_view_is_bounded simple_WRatio full_process
           (set_filter (fresh_menu simple_WRatio full_process fruit) "ba")
           (banana_menu simple_WRatio full_process)).
  - reflexivity.
  - reflexivity.
Defined.

Lemma waiting_session_has_no_result_witness :
  value (banana_menu simple_WRatio full_process) = None /\
  _done (banana_menu simple_WRatio full_process) = false /\
  _items (banana_menu simple_WRatio full_process) = fruit.
Proof.
  apply (waiting_session_has_no_result simple_WRatio full_process false "" fruit
           (map typed ["b"; "a"]) Cooked Cooked).
  reflexivity.
Defined.

Lemma returned_key_is_an_item_key_witness : In "b" (keys fruit).
Proof.
  apply (returned_key_is_an_item_key simple_WRatio full_process false "" fruit
           (map typed ["b"; "a"; ENTER]) Cooked Cooked).
  vm_compute. reflexivity.
Defined.

Lemma enter_returns_cursor_key_witness :
  exists k,
    nth_error (keys (_items_filtered (banana_menu simple_WRatio full_process)))
              (Z.to_nat (_selected_index (banana_menu simple_WRatio full_process)))
      = Some k /\
    In k (keys (_items_filtered (banana_menu simple_WRatio full_process))) /\
    run simple_WRatio full_process false (fresh_menu simple_WRatio full_process fruit)
        (map typed ["b"; "a"] ++ typed ENTER :: map typed [DOWN]) Cooked
      = (Ok (Returned (Some k)), Cooked).
Proof.
  apply (enter_returns_cursor_key simple_WRatio full_process false
           (fresh_menu simple_WRatio full_process fruit)
           (banana_menu simple_WRatio full_process)
           (map typed ["b"; "a"]) (map typed [DOWN]) Cooked Cooked).
  - reflexivity.
  - discriminate.
Defined.

Lemma downs_then_enter_choose_witness :
  prompt simple_WRatio full_process false "" fruit
         (map typed (repeat DOWN 5) ++ typed ENTER :: []) Cooked
  = (Ok (Returned (Some "c")), Cooked).
Proof.
  apply (downs_then_enter_choose simple_WRatio full_process false "" fruit 5 [] Cooked).
  discriminate.
Defined.

Lemma arrows_stop_at_the_ends_witness :
  check_key simple_WRatio full_process false
            (fresh_menu simple_WRatio full_process fruit) (typed UP) Cooked
  = (Ok (fresh_menu simple_WRatio full_process fruit), Cooked) /\
  check_key simple_WRatio full_process false
            (set_selected_index (fresh_menu simple_WRatio full_process fruit) 2)
            (typed DOWN) Cooked
  = (Ok (set_selected_index (fresh_menu simple_WRatio full_process fruit) 2), Cooked).
Proof.
  split.
  - apply (proj1 (arrows_stop_at_the_ends simple_WRatio full_process false
                    (fresh_menu simple_WRatio full_process fruit) Cooked
                    ltac:(discriminate))).
    reflexivity.
  - apply (proj2 (arrows_stop_at_the_ends simple_WRatio full_process false
                    (set_selected_index (fresh_menu simple_WRatio full_process fruit) 2)
                    Cooked ltac:(discriminate))).
    reflexivity.
Defined.

Lemma backspace_on_empty_filter_witness :
  exists self',
    check_key simple_WRatio full_process false
              (set_selected_index (fresh_menu simple_WRatio full_process fruit) 2)
              (typed DEL) Cooked
      = (Ok self', Cooked) /\
    filter self' = "" /\ _selected_index self' = 0 /\
    _items_filtered self' = fruit /\ _items self' = fruit /\
    _done self' = false /\ value self' = None.
Proof.
  apply (backspace_on_empty_filter simple_WRatio full_process false
           (set_selected_index (fresh_menu simple_WRatio full_process fruit) 2) Cooked).
  reflexivity.
Defined.

Lemma empty_needle_matches_everything_witness :
  full_process (lower "-") = "" /\
  search_for_matches full_process "-" ["a: Apple"; "b: Banana"; "c: Cherry"]
                     2 default_threshold (fuzz_scorer simple_WRatio)
  = [("a: Apple", 100); ("b: Banana", 100)].
Proof.
  split; [reflexivity|].
  apply (empty_needle_matches_everything simple_WRatio full_process "-"
           ["a: Apple"; "b: Banana"; "c: Cherry"] 2 default_threshold).
  - reflexivity.
  - unfold default_threshold. lia.
Defined.

Lemma fuzz_scorer_range_witness :
  0 <= fuzz_scorer simple_WRatio "e" minds_option
    <= 100 + Z.max (10 * len "e") (len minds_option).
Proof.
  apply (fuzz_scorer_range simple_WRatio "e" minds_option simple_WRatio_range).
Defined.

Lemma search_for_matches_complete_witness :
  In ("b: Banana", 96)
     (search_for_matches full_process "BA" ["a: Apple"; "b: Banana"; "c: Cherry"]
                         10 46 (fuzz_scorer simple_WRatio)).
Proof.
  apply (search_for_matches_complete full_process "BA"
           ["a: Apple"; "b: Banana"; "c: Cherry"] 10 46 (fuzz_scorer simple_WRatio)
           "b: Banana" 96).
  - simpl. lia.
  - split; [simpl; auto|]. split; [vm_compute; reflexivity|]. lia.
Defined.

Lemma view_follows_ranking_witness :
  exists d,
    search simple_WRatio full_process
           (set_filter (fresh_menu simple_WRatio full_process fruit) "a")
      = Ok (set_items_filtered
              (set_filter (fresh_menu simple_WRatio full_process fruit) "a") d) /\
    map candidate d =
      map fst (search_for_matches full_process "a" (map candidate fruit)
                 default_limit default_threshold (fuzz_scorer simple_WRatio)).
Proof.
  apply (view_follows_ranking simple_WRatio full_process
           (set_filter (fresh_menu simple_WRatio full_process fruit) "a")).
  - reflexivity.
  - reflexivity.
  - simpl. repeat constructor; simpl; intuition discriminate.
Defined.

Lemma active_table_marks_the_cursor_witness :
  generate (set_selected_index (fresh_menu simple_WRatio full_process fruit) 1)
  = [plain_row "Apple"; cursor_row "Banana"; plain_row "Cherry"; blank_row; blank_row]
  /\ generate (no_match_menu simple_WRatio full_process)
     = [no_match_row; blank_row; filter_row "zq"; blank_row].
Proof.
  split.
  - apply (proj2 (active_table_marks_the_cursor
                    (set_selected_index (fresh_menu simple_WRatio full_process fruit) 1)
                    eq_refl) 1%nat "b" "Banana"); reflexivity.
  - apply (proj1 (active_table_marks_the_cursor
                    (no_match_menu simple_WRatio full_process) eq_refl)).
    reflexivity.
Defined.

Lemma done_table_shows_the_choice_witness :
  generate (set_value (set_done
              (set_selected_index (fresh_menu simple_WRatio full_process fruit) 2)
              true) (Some "c"))
  = [chosen_row "Cherry"; blank_row].
Proof.
  apply (done_table_shows_the_choice _ 2%nat "c" "Cherry"); reflexivity.
Defined.
